(** * smarthttp: the resilient outbound HTTP client of storemono

    A shallow embedding of [libs/smarthttp] (client, retries, circuit
    breaker, singleflight) as state-passing functions, followed by the
    properties of the pipeline.

    Go values are modelled as follows.
    - [int] status codes and thresholds are [Z].
    - [error] values are a tree ([error]); [errors.Is] and [errors.As]
      walk its [Unwrap] chain.  The package-level sentinels
      ([ErrTimeout], [errRetryAllowed], ...) are compared by identity.
    - [*http.Request] and the [io.ReadCloser] bodies are mutable objects:
      they live in two heaps of the [State], addressed by [loc].
    - calls on the [Instrumentation] collaborator are appended to the
      [events] of the [State].
    - an [*http.Client] is its timeout and its transport, of which the
      model knows whether it dials through the wrapper of
      [GetTransportWithCustomDialer].
    - everything outside the package (the network behind [http.Client],
      the request context, the hystrix command, time) is an oracle over
      an abstract world [W].  The requests handed to [http.Client.Do]
      are listed in the [wire] of the [State], also when the dial
      fails. *)

From Stdlib Require Import ZArith Lia.
From Stdlib.Strings Require Import Byte Ascii.
From stdpp Require Import base list strings gmap.


(** ** Errors *)

(** The error values that exist once per process. *)
Inductive sentinel : Type :=
| ErrConnectTimeout
| ErrConnection
| ErrTimeout
| errRetryImpossible
| errRetryAllowed
| errTrackableStatusCodeError
| ErrCircuitIsOpen
| ErrCircuitMaxConcurrencyReached
| ErrCircuitTimeout
| context_DeadlineExceeded
| context_Canceled
| retry_ErrAttemptsExceeded
| hystrix_ErrCircuitOpen
| hystrix_ErrMaxConcurrency
| hystrix_ErrTimeout
| errors_New (msg : string).

#[global] Instance sentinel_eq_dec : EqDecision sentinel.
Proof. solve_decision. Defined.

(** An [error] is a sentinel, a [fmt.Errorf] value whose format has one
    [%w] operand and one [%s]/[%v] operand, a [*url.Error], or some other
    implementation of [net.Error] (such as [*net.OpError]). *)
Inductive error : Type :=
| Sentinel (s : sentinel)
| Errorf (format : string) (wrapped : error) (arg : error)
| UrlError (Op URL : string) (Err : error)
| NetError (msg : string) (timeout : bool).

#[global] Instance error_eq_dec : EqDecision error.
Proof. solve_decision. Defined.

(** [errors.Is(err, target)] for a sentinel target: [Errorf] unwraps to
    its [%w] operand, [*url.Error] to its [Err]. *)
Fixpoint errors_Is (err : error) (target : sentinel) : bool :=
  match err with
  | Sentinel s => bool_decide (s = target)
  | Errorf _ wrapped _ => errors_Is wrapped target
  | UrlError _ _ inner => errors_Is inner target
  | NetError _ _ => false
  end.

(** [errors.Is] on a possibly nil error. *)
Definition errors_Is_opt (err : option error) (target : sentinel) : bool :=
  match err with
  | Some e => errors_Is e target
  | None => false
  end.

(** The [Timeout() bool] method: [None] when the dynamic type has no such
    method.  [context.DeadlineExceeded] has one (it returns true);
    the [error_Timeout] of a [*url.Error] asks its [Err]. *)
Fixpoint error_Timeout (err : error) : option bool :=
  match err with
  | Sentinel context_DeadlineExceeded => Some true
  | Sentinel _ => None
  | Errorf _ _ _ => None
  | UrlError _ _ inner =>
      Some (match error_Timeout inner with Some t => t | None => false end)
  | NetError _ t => Some t
  end.

(** [errors.As(err, &urlErr)]: the first [*url.Error] of the chain. *)
Fixpoint errors_As_UrlError (err : error) : option error :=
  match err with
  | UrlError _ _ _ => Some err
  | Errorf _ wrapped _ => errors_As_UrlError wrapped
  | Sentinel _ | NetError _ _ => None
  end.

(** The type assertion [err.(net.Error)]. *)
Definition as_net_Error (err : error) : option bool := error_Timeout err.

(** ** Requests, responses, readers *)

Definition loc := nat.

Record Url := { url_String : string; url_Path : string }.

Record Request := {
  Method : string;
  URL : Url;
  Body : option loc
}.

Record Response := {
  StatusCode : Z;
  Payload : list byte
}.

(** A body stream: the bytes not yet read, and the error (if any) its
    [Read] returns in place of [io.EOF] once they are exhausted. *)
Record Reader := {
  pending : list byte;
  fault : option error
}.

Definition http_MethodGet : string := "GET".

(** ** Instrumentation calls *)

Inductive Event : Type :=
| Init (name : string)
| InitWarning (message : string)
| DoDuration (endpointTag : string)
| BaseDoDuration (statusCode : Z) (endpointTag : string)
| BaseDoErr (err : error) (endpointTag errTag : string)
| CBCircuitOpen (req : loc)
| CBTrackedStatusCode (req : loc) (code : Z)
| RetryNonRetriable (req : loc) (code : Z)
| RetryRetriable (req : loc) (code : Z)
| SingleflightErr (req : loc) (err : error).

#[global] Instance Event_eq_dec : EqDecision Event.
Proof. solve_decision. Defined.

(** What one call of [http.Client.Do] saw of the request it was given. *)
Record ReqView := {
  view_req : loc;
  view_Method : string;
  view_URL : Url;
  view_Body : option (loc * list byte)
}.

(** What the network did with it: the returned pair, and how many bytes
    of the body it read; or, when the attempt ended while dialing, the
    error of [dialer.DialContext]. *)
Record HttpResult := {
  http_resp : option Response;
  http_err : option error;
  http_consumed : nat;
  http_dialErr : option error
}.

(** The decision of the hystrix command for one call. *)
Inductive Gate : Type :=
| GateRun
| GateOpen
| GateMaxConcurrency
| GateTimedOut.

(** The collaborators outside the package, as oracles over a world [W]. *)
Record Env (W : Type) := {
  env_httpDo : ReqView -> W -> HttpResult * W;
  env_ctxErr : W -> option error;
  env_sleep : nat -> W -> W;
  env_gate : string -> W -> Gate;
  env_peer : string -> W -> option (option Response * option error);
  env_UnixNano : W -> string
}.
Arguments env_httpDo {W}.
Arguments env_ctxErr {W}.
Arguments env_sleep {W}.
Arguments env_gate {W}.
Arguments env_peer {W}.
Arguments env_UnixNano {W}.

(** The result of a call that may panic (nil dereference). *)
Inductive Outcome : Type :=
| Returned (resp : option Response) (err : option error)
| Panicked.

(** ** The dial wrapper of [GetTransportWithCustomDialer] *)

(** What [DialContext] returns for the error [err] of
    [dialer.DialContext]. *)
Definition DialContext_err (err : error) : error :=
  match as_net_Error err with
  | Some true => Sentinel ErrConnectTimeout
  | Some false => Errorf "%w %v" (Sentinel ErrConnection) err
  | None => err
  end.

(** An [*http.Transport], as far as the package is concerned: one that
    dials with [net.Dialer] itself, or the one that
    [GetTransportWithCustomDialer] returns, whose [DialContext] is the
    wrapper above.  ([connectionTimeout] is the [Timeout] of its dialer:
    it decides when a dial fails, which is the network's business.) *)
Inductive Transport : Type :=
| PlainTransport
| CustomDialerTransport (connectionTimeout : Z).

Definition GetTransportWithCustomDialer (connectionTimeout : Z) : Transport :=
  CustomDialerTransport connectionTimeout.

(** An [*http.Client]: its [Timeout] and its [Transport], which is nil
    for [http.DefaultTransport]. *)
Record http_Client := {
  hc_Timeout : Z;
  hc_Transport : option Transport
}.

Definition buildClient (timeout connectTimeout : Z) : http_Client :=
  {| hc_Timeout := timeout;
     hc_Transport := Some (GetTransportWithCustomDialer connectTimeout) |}.

(** What the transport's dial returns for the error [err] of
    [dialer.DialContext]. *)
Definition Transport_dial (t : option Transport) (err : error) : error :=
  match t with
  | Some (CustomDialerTransport _) => DialContext_err err
  | Some PlainTransport | None => err
  end.


(** Modelled from the spec: [urlErrorOp] of [net/http], the [Op] of the
    [*url.Error] that [http.Client.Do] returns: the method with its first
    byte kept and the others in lower case ([Get] for no method). *)
Definition to_lower (c : Ascii.ascii) : Ascii.ascii :=
  let n := Ascii.nat_of_ascii c in
  if (65 <=? n) && (n <=? 90) then Ascii.ascii_of_nat (n + 32) else c.

Fixpoint string_to_lower (s : string) : string :=
  match s with
  | EmptyString => EmptyString
  | String c rest => String (to_lower c) (string_to_lower rest)
  end.

Fixpoint is_print (s : string) : bool :=
  match s with
  | EmptyString => true
  | String c rest =>
      (32 <=? Ascii.nat_of_ascii c) && (Ascii.nat_of_ascii c <=? 126)
      && is_print rest
  end.

Definition urlErrorOp (method : string) : string :=
  match method with
  | EmptyString => "Get"
  | String c rest =>
      if is_print method then String c (string_to_lower rest) else method
  end.

(** Modelled from the spec: what [http.Client.Do] of the client [cl]
    makes of the network's result for the request [r].  A failed dial
    gives no response and a [*url.Error] around what the transport's
    dial returned; nothing of the body has been read.  (The URLs of the
    model carry no password, so the [URL] of the error is the URL
    string.) *)
Definition roundTrip (cl : http_Client) (r : Request) (res : HttpResult)
  : HttpResult :=
  match http_dialErr res with
  | Some dialErr =>
      {| http_resp := None;
         http_err := Some (UrlError (urlErrorOp (Method r)) (url_String (URL r))
                             (Transport_dial (hc_Transport cl) dialErr));
         http_consumed := 0;
         http_dialErr := Some dialErr |}
  | None => res
  end.

(** ** Status code classes *)

Definition code_in (code : Z) (codes : list Z) : bool :=
  existsb (Z.eqb code) codes.

(** First case of the switch in [Retries.buildMiddleware], in source
    order: BadRequest ... NetworkAuthenticationRequired. *)
Definition nonRetriableCodes : list Z :=
  [400; 401; 402; 403; 404; 405; 406; 407;
   410; 411; 412; 413; 414; 415; 416;
   417; 418; 421; 422; 423; 424; 425; 426;
   428; 429; 431; 451; 501; 502;
   505; 506; 507; 508; 510; 511]%Z.

(** Second case: RequestTimeout, InternalServerError, ServiceUnavailable,
    GatewayTimeout. *)
Definition retriableCodes : list Z := [408; 500; 503; 504]%Z.

(** The case of [outErrorBasedOnResponseCode], in source order. *)
Definition trackedCodes : list Z :=
  [408; 429; 500; 501; 502; 503; 504; 505; 506; 507; 508; 510; 511]%Z.

Definition defaultMaxAttempts : Z := 3.
Definition defaultBaseRetryDelay : Z := 10 * 1000000.
Definition defaultMaxRetryDelay : Z := 1000000000.
Definition defaultErrorThreshold : Z := 80.
Definition minErrorThreshold : Z := 50.
Definition defaultMaxConcurrentRequests : Z := 10.
Definition defaultTimeout : Z := 3 * 1000000000.
Definition defaultConnectTimeout : Z := 1000000000.

(** ** Configuration objects *)

(** The [retry.Client] built by [Retries.doInitOnce].  Durations are in
    nanoseconds. *)
Record RetryClient := {
  rc_MaxAttempts : Z;
  rc_BaseDelay : Z;
  rc_MaxDelay : Z;
  rc_CanRetry : error -> bool
}.

Record Retries := {
  MaxAttempts : Z;
  BaseDelay : Z;
  MaxDelay : Z;
  retrier : option RetryClient
}.

(** [trackError] is the test hook of the breaker: it may only update the
    [totalTrackedErrors] counter of the breaker it is given. *)
Record CircuitBreaker := {
  ErrorPercentThreshold : Z;
  MaxConcurrentRequests : Z;
  cb_name : string;
  trackError : option (Z -> Z)
}.

(** A key generator reads the request; [trackKey] is the test hook that
    may only update [trackedKeys]. *)
Record Singleflight := {
  KeyGenerator : option (Request -> string);
  actualKeyGenerator : option (Request -> string);
  trackKey : option (string -> list string -> list string)
}.

(** The settings handed to [hystrix.ConfigureCommand]. *)
Record CommandConfig := {
  cc_Timeout : Z;
  cc_MaxConcurrentRequests : Z;
  cc_ErrorPercentThreshold : Z
}.

(** An [Instrumentation] implementation; of its methods only
    [SanitizePath] returns a value. *)
Record Instrumentation := { SanitizePath : string -> string }.

(** [noopInstrumentation], whose methods do nothing; its [SanitizePath]
    returns the empty string (libs/logger/logger.go, line 151). *)
Definition noopInstrumentation : Instrumentation :=
  {| SanitizePath := fun _ => "" |}.

Record Client := {
  Name : string;
  ClientClient : option http_Client;
  clientInitOnce : bool;
  ClientTimeout : Z;
  ConnectTimeout : Z;
  ClientInstrumentation : option Instrumentation;
  ClientCircuitBreaker : CircuitBreaker;
  ClientRetries : option Retries;
  ClientSingleflight : option Singleflight
}.

(** ** The state *)

Section Model.

Context {W : Type}.

Record State := {
  reqs : list Request;
  readers : list Reader;
  events : list Event;
  wire : list ReqView;
  hystrix_config : list (string * CommandConfig);
  hystrix_log : list (string * option error);
  sf_calls : list string;
  totalTrackedErrors : Z;
  trackedKeys : list string;
  world : W
}.

Definition set_reqs (f : list Request -> list Request) (st : State) : State :=
  {| reqs := f (reqs st); readers := readers st; events := events st;
     wire := wire st; hystrix_config := hystrix_config st;
     hystrix_log := hystrix_log st; sf_calls := sf_calls st;
     totalTrackedErrors := totalTrackedErrors st;
     trackedKeys := trackedKeys st; world := world st |}.

Definition set_readers (f : list Reader -> list Reader) (st : State) : State :=
  {| reqs := reqs st; readers := f (readers st); events := events st;
     wire := wire st; hystrix_config := hystrix_config st;
     hystrix_log := hystrix_log st; sf_calls := sf_calls st;
     totalTrackedErrors := totalTrackedErrors st;
     trackedKeys := trackedKeys st; world := world st |}.

Definition set_events (f : list Event -> list Event) (st : State) : State :=
  {| reqs := reqs st; readers := readers st; events := f (events st);
     wire := wire st; hystrix_config := hystrix_config st;
     hystrix_log := hystrix_log st; sf_calls := sf_calls st;
     totalTrackedErrors := totalTrackedErrors st;
     trackedKeys := trackedKeys st; world := world st |}.

Definition set_wire (f : list ReqView -> list ReqView) (st : State) : State :=
  {| reqs := reqs st; readers := readers st; events := events st;
     wire := f (wire st); hystrix_config := hystrix_config st;
     hystrix_log := hystrix_log st; sf_calls := sf_calls st;
     totalTrackedErrors := totalTrackedErrors st;
     trackedKeys := trackedKeys st; world := world st |}.

Definition set_hystrix_config
    (f : list (string * CommandConfig) -> list (string * CommandConfig))
    (st : State) : State :=
  {| reqs := reqs st; readers := readers st; events := events st;
     wire := wire st; hystrix_config := f (hystrix_config st);
     hystrix_log := hystrix_log st; sf_calls := sf_calls st;
     totalTrackedErrors := totalTrackedErrors st;
     trackedKeys := trackedKeys st; world := world st |}.

Definition set_hystrix_log
    (f : list (string * option error) -> list (string * option error))
    (st : State) : State :=
  {| reqs := reqs st; readers := readers st; events := events st;
     wire := wire st; hystrix_config := hystrix_config st;
     hystrix_log := f (hystrix_log st); sf_calls := sf_calls st;
     totalTrackedErrors := totalTrackedErrors st;
     trackedKeys := trackedKeys st; world := world st |}.

Definition set_sf_calls (f : list string -> list string) (st : State) : State :=
  {| reqs := reqs st; readers := readers st; events := events st;
     wire := wire st; hystrix_config := hystrix_config st;
     hystrix_log := hystrix_log st; sf_calls := f (sf_calls st);
     totalTrackedErrors := totalTrackedErrors st;
     trackedKeys := trackedKeys st; world := world st |}.

Definition set_totalTrackedErrors (f : Z -> Z) (st : State) : State :=
  {| reqs := reqs st; readers := readers st; events := events st;
     wire := wire st; hystrix_config := hystrix_config st;
     hystrix_log := hystrix_log st; sf_calls := sf_calls st;
     totalTrackedErrors := f (totalTrackedErrors st);
     trackedKeys := trackedKeys st; world := world st |}.

Definition set_trackedKeys (f : list string -> list string) (st : State) : State :=
  {| reqs := reqs st; readers := readers st; events := events st;
     wire := wire st; hystrix_config := hystrix_config st;
     hystrix_log := hystrix_log st; sf_calls := sf_calls st;
     totalTrackedErrors := totalTrackedErrors st;
     trackedKeys := f (trackedKeys st); world := world st |}.

Definition set_world (f : W -> W) (st : State) : State :=
  {| reqs := reqs st; readers := readers st; events := events st;
     wire := wire st; hystrix_config := hystrix_config st;
     hystrix_log := hystrix_log st; sf_calls := sf_calls st;
     totalTrackedErrors := totalTrackedErrors st;
     trackedKeys := trackedKeys st; world := f (world st) |}.

(** One call on the [Instrumentation] collaborator. *)
Definition instr (e : Event) (st : State) : State :=
  set_events (fun l => l ++ [e]) st.

Definition requestClosure : Type := loc -> State -> Outcome * State.

(** ** Heap operations *)

Definition new_Request (r : Request) (st : State) : loc * State :=
  (length (reqs st), set_reqs (fun l => l ++ [r]) st).

Definition new_Reader (data : list byte) (st : State) : loc * State :=
  (length (readers st),
   set_readers (fun l => l ++ [{| pending := data; fault := None |}]) st).

(** The assignment [req.Body = body]. *)
Definition set_Body (req : loc) (body : loc) (st : State) : State :=
  match reqs st !! req with
  | Some r =>
      set_reqs (fun l => <[req := {| Method := Method r; URL := URL r;
                                     Body := Some body |}]> l) st
  | None => st
  end.

(** Reading [n] bytes off a reader. *)
Definition advance (rd : loc) (n : nat) (st : State) : State :=
  match readers st !! rd with
  | Some r =>
      set_readers (fun l => <[rd := {| pending := drop n (pending r);
                                       fault := fault r |}]> l) st
  | None => st
  end.

(** [b.ReadFrom(body)]: everything the reader still holds, and its error
    if it ends with one.  [None] for a reader that does not exist. *)
Definition ReadFrom (rd : loc) (st : State)
  : option (list byte * option error * State) :=
  match readers st !! rd with
  | Some r => Some (pending r, fault r, advance rd (length (pending r)) st)
  | None => None
  end.

(** ** retries.go: [cloneRequest] *)

Inductive CloneResult : Type :=
| Cloned (reqClone : loc)
| CloneErr (err : error)
| ClonePanic.

Definition cloneRequest (req : loc) (st : State) : CloneResult * State :=
  match reqs st !! req with
  | None => (ClonePanic, st)
  | Some r =>
      let '(reqClone, st) := new_Request r st in
      match Body r with
      | None => (Cloned reqClone, st)
      | Some body =>
          match ReadFrom body st with
          | None => (ClonePanic, st)
          | Some (_, Some err, st) => (CloneErr err, st)
          | Some (data, None, st) =>
              let '(b, st) := new_Reader data st in
              let st := set_Body req b st in
              let '(rd, st) := new_Reader data st in
              let st := set_Body reqClone rd st in
              (Cloned reqClone, st)
          end
      end
  end.

End Model.

Arguments State : clear implicits.

(** ** The client: the base executor *)

Definition generateEndpointTag (method path : string) : string :=
  method +:+ "::" +:+ path.

(** [urlErr.Timeout()] for the value found by [errors.As]. *)
Definition urlErr_Timeout (err : error) : bool :=
  match errors_As_UrlError err with
  | Some urlErr =>
      match error_Timeout urlErr with Some t => t | None => false end
  | None => false
  end.

(** The switch of [doRequestFunc] on a non-nil error of
    [http.Client.Do]: the error it returns and the tag it reports. *)
Definition baseErr (err : error) : error * string :=
  if urlErr_Timeout err then
    (Errorf "%w - %s" (Sentinel ErrTimeout) err, "timeout")
  else if errors_Is err context_DeadlineExceeded then (err, "ctxTimeout")
  else if errors_Is err context_Canceled then (err, "ctxCanceled")
  else (err, "na").

(** The results of a function that returns an [error] and may panic. *)
Inductive DoResult : Type :=
| DoErr (err : option error)
| DoPanic.

Section Pipeline.

Context {W : Type} (env : Env W).

Abbreviation State := (State W).
Abbreviation requestClosure := (@requestClosure W).

(** The request [r] at [req] as the client is given it: with what its
    body reader holds. *)
Definition request_view (req : loc) (r : Request) (st : State) : ReqView :=
  {| view_req := req; view_Method := Method r; view_URL := URL r;
     view_Body := match Body r with
                  | Some b =>
                      match readers st !! b with
                      | Some rd => Some (b, pending rd)
                      | None => None
                      end
                  | None => None
                  end |}.

(** Modelled from the spec: [http.Client.Do] of the Go standard library,
    which is not part of the repository, called on the client [cl] (a
    nil client is dereferenced).  One network attempt: the world decides
    what the network does, the client turns it into the returned pair;
    the request as the client was given it is appended to [wire]. *)
Definition http_Client_Do (cl : option http_Client) (req : loc) (st : State)
  : Outcome * State :=
  match cl, reqs st !! req with
  | None, _ | _, None => (Panicked, st)
  | Some cl, Some r =>
      let view := request_view req r st in
      let body := view_Body view in
      let '(res, w) := env_httpDo env view (world st) in
      let res := roundTrip cl r res in
      let st := set_wire (fun l => l ++ [view]) st in
      let st := set_world (fun _ => w) st in
      let st := match body with
                | Some (b, _) => advance b (http_consumed res) st
                | None => st
                end in
      (Returned (http_resp res) (http_err res), st)
  end.

(** The closure [doRequestFunc] of [Client.Do]; [cl] is what
    [c.getClient()] returns. *)
Definition doRequestFunc (cl : option http_Client) (endpointTag : string)
  : requestClosure :=
  fun req st =>
    match http_Client_Do cl req st with
    | (Panicked, st) => (Panicked, st)
    | (Returned resp (Some err), st) =>
        let st := instr (BaseDoDuration 0 endpointTag) st in
        let '(err', errTag) := baseErr err in
        (Returned resp (Some err'), instr (BaseDoErr err endpointTag errTag) st)
    | (Returned resp None, st) =>
        match resp with
        | Some r =>
            (Returned resp None,
             instr (BaseDoDuration (StatusCode r) endpointTag) st)
        | None => (Panicked, st)
        end
    end.

(** ** retries.go *)

(** [getMaxAttempts], [getBaseDelay], [getMaxDelay]. *)
Definition getMaxAttempts (r : Retries) (st : State) : Z * State :=
  if (0 <? MaxAttempts r)%Z then (MaxAttempts r, st)
  else (defaultMaxAttempts,
        instr (InitWarning "using default 'max attempts' setting for retries") st).

Definition getBaseDelay (r : Retries) (st : State) : Z * State :=
  if (0 <? BaseDelay r)%Z then (BaseDelay r, st)
  else (defaultBaseRetryDelay,
        instr (InitWarning "using default 'base retry delay' setting for retries") st).

Definition getMaxDelay (r : Retries) (st : State) : Z * State :=
  if (0 <? MaxDelay r)%Z then (MaxDelay r, st)
  else (defaultMaxRetryDelay,
        instr (InitWarning "using default 'max retry delay' setting for retries") st).

(** Modelled from the spec: [retry.Client.Do] of the third-party package
    [github.com/corsc/go-commons/resilience/retry], which is not part of
    the repository.  At most [MaxAttempts] calls of [do]; before each one
    the context is consulted, and an expired or cancelled context ends the
    loop with its error; a nil error ends it with nil; an error that
    [CanRetry] refuses ends it with that error; a retriable error on the
    last attempt ends it with [ErrAttemptsExceeded]; otherwise the loop
    sleeps for the backoff of that attempt and goes on.  [V] is the type
    of the variables that [do] captures. *)
Fixpoint retry_loop {V : Type} (rc : RetryClient) (remaining attempts : nat)
    (do : V * State -> DoResult * (V * State)) (s : V * State)
  : DoResult * (V * State) :=
  match remaining with
  | O => (DoErr (Some (Sentinel retry_ErrAttemptsExceeded)), s)
  | S remaining' =>
      match env_ctxErr env (world s.2) with
      | Some e => (DoErr (Some e), s)
      | None =>
          match do s with
          | (DoPanic, s') => (DoPanic, s')
          | (DoErr None, s') => (DoErr None, s')
          | (DoErr (Some e), s') =>
              if rc_CanRetry rc e then
                match remaining' with
                | O => (DoErr (Some (Sentinel retry_ErrAttemptsExceeded)), s')
                | S _ =>
                    retry_loop rc remaining' (S attempts) do
                      (s'.1, set_world (env_sleep env (S attempts)) s'.2)
                end
              else (DoErr (Some e), s')
          end
      end
  end.

Definition retry_Do {V : Type} (rc : RetryClient)
    (do : V * State -> DoResult * (V * State)) (s : V * State)
  : DoResult * (V * State) :=
  retry_loop rc (Z.to_nat (rc_MaxAttempts rc)) 0 do s.

(** The variables captured by the closure handed to the retrier. *)
Record RetryVars := {
  rv_req : loc;
  rv_reqClone : option loc;
  rv_resp : option Response;
  rv_innerErr : option error;
  rv_isFirstTry : bool
}.

(** The variables when the retrier is entered, and after the assignment
    [resp, innerErr = doFunc(req)]. *)
Definition rv_initial (req reqClone : loc) : RetryVars :=
  {| rv_req := req; rv_reqClone := Some reqClone; rv_resp := None;
     rv_innerErr := None; rv_isFirstTry := true |}.

Definition rv_returned (v : RetryVars) (resp : option Response)
    (err : option error) : RetryVars :=
  {| rv_req := rv_req v; rv_reqClone := rv_reqClone v; rv_resp := resp;
     rv_innerErr := err; rv_isFirstTry := false |}.

(** The three classes of the switch on [resp.StatusCode]. *)
Inductive RetryClass : Type :=
| NonRetriable
| Retriable
| HappyPath.

Definition retryClass (code : Z) : RetryClass :=
  if code_in code nonRetriableCodes then NonRetriable
  else if code_in code retriableCodes then Retriable
  else HappyPath.

(** The first statement of the function handed to [r.retrier.Do]: on
    every try but the first, [req = reqClone] and a fresh clone is made.
    [None] when the function goes on to the request. *)
Definition retry_prepare (s : RetryVars * State)
  : option DoResult * (RetryVars * State) :=
  let '(v, st) := s in
  if rv_isFirstTry v then
    (None, ({| rv_req := rv_req v; rv_reqClone := rv_reqClone v;
               rv_resp := rv_resp v; rv_innerErr := rv_innerErr v;
               rv_isFirstTry := false |}, st))
  else
    match rv_reqClone v with
    | None => (Some DoPanic, (v, st))
    | Some req =>
        match cloneRequest req st with
        | (ClonePanic, st) => (Some DoPanic, (v, st))
        | (CloneErr err, st) =>
            (Some (DoErr (Some err)),
             ({| rv_req := req; rv_reqClone := None;
                 rv_resp := rv_resp v; rv_innerErr := rv_innerErr v;
                 rv_isFirstTry := false |}, st))
        | (Cloned reqClone, st) =>
            (None,
             ({| rv_req := req; rv_reqClone := Some reqClone;
                 rv_resp := rv_resp v; rv_innerErr := rv_innerErr v;
                 rv_isFirstTry := false |}, st))
        end
    end.

(** The function handed to [r.retrier.Do]. *)
Definition retry_attempt (doFunc : requestClosure) (s : RetryVars * State)
  : DoResult * (RetryVars * State) :=
  match retry_prepare s with
  | (Some res, s) => (res, s)
  | (None, (v, st)) =>
      match doFunc (rv_req v) st with
      | (Panicked, st) => (DoPanic, (v, st))
      | (Returned resp innerErr, st) =>
          let v := rv_returned v resp innerErr in
          match innerErr with
          | Some e =>
              if errors_Is e ErrTimeout then
                (DoErr (Some (Sentinel errRetryAllowed)),
                 (v, instr (RetryRetriable (rv_req v) 666) st))
              else (DoErr (Some e), (v, st))
          | None =>
              match resp with
              | None => (DoPanic, (v, st))
              | Some r =>
                  match retryClass (StatusCode r) with
                  | NonRetriable =>
                      (DoErr (Some (Sentinel errRetryImpossible)),
                       (v, instr (RetryNonRetriable (rv_req v) (StatusCode r)) st))
                  | Retriable =>
                      (DoErr (Some (Sentinel errRetryAllowed)),
                       (v, instr (RetryRetriable (rv_req v) (StatusCode r)) st))
                  | HappyPath => (DoErr None, (v, st))
                  end
              end
          end
      end
  end.

(** The switch after [r.retrier.Do] returned [err]. *)
Definition retry_result (v : RetryVars) (err : option error) : Outcome :=
  if errors_Is_opt err ErrTimeout || errors_Is_opt err context_DeadlineExceeded
  then Returned None err
  else if errors_Is_opt err errRetryImpossible
          || errors_Is_opt err errRetryAllowed
          || errors_Is_opt err retry_ErrAttemptsExceeded
  then Returned (rv_resp v) (rv_innerErr v)
  else Returned (rv_resp v) err.

Definition Retries_buildMiddleware (r : Retries) (doFunc : requestClosure)
  : requestClosure :=
  fun req st =>
    match cloneRequest req st with
    | (ClonePanic, st) => (Panicked, st)
    | (CloneErr err, st) => (Returned None (Some err), st)
    | (Cloned reqClone, st) =>
        match retrier r with
        | None => (Panicked, st)
        | Some rc =>
            let v := rv_initial req reqClone in
            match retry_Do rc (retry_attempt doFunc) (v, st) with
            | (DoPanic, (_, st)) => (Panicked, st)
            | (DoErr err, (v, st)) => (retry_result v err, st)
            end
        end
    end.

Definition Retries_addMiddleware (r : option Retries) (doFunc : requestClosure)
  : requestClosure :=
  match r with
  | None => doFunc
  | Some r => Retries_buildMiddleware r doFunc
  end.

(** [doInitOnce] for a receiver that is not nil, as [Client.doInitOnce]
    calls it. *)
Definition Retries_doInitOnce (r : Retries) (st : State) : Retries * State :=
  let '(maxAttempts, st) := getMaxAttempts r st in
  let '(baseDelay, st) := getBaseDelay r st in
  let '(maxDelay, st) := getMaxDelay r st in
  ({| MaxAttempts := MaxAttempts r; BaseDelay := BaseDelay r;
      MaxDelay := MaxDelay r;
      retrier := Some {| rc_MaxAttempts := maxAttempts;
                         rc_BaseDelay := baseDelay;
                         rc_MaxDelay := maxDelay;
                         rc_CanRetry := fun err => errors_Is err errRetryAllowed |} |},
   st).

(** ** The circuit breaker *)

(** [int(defaultCircuitBreakerTimeout.Milliseconds())] for one hour. *)
Definition getTimeout (b : CircuitBreaker) : Z := 3600000.

Definition getMaxConcurrent (b : CircuitBreaker) (st : State) : Z * State :=
  if (0 <? MaxConcurrentRequests b)%Z then (MaxConcurrentRequests b, st)
  else (defaultMaxConcurrentRequests,
        instr (InitWarning
                 "using default 'max concurrent requests' setting for circuit breaker")
              st).

Definition getErrorPercent (b : CircuitBreaker) (st : State) : Z * State :=
  if (minErrorThreshold <? ErrorPercentThreshold b)%Z
  then (ErrorPercentThreshold b, st)
  else (defaultErrorThreshold,
        instr (InitWarning
                 "using default 'error threshold' setting for circuit breaker")
              st).

Definition outErrorBasedOnResponseCode (b : CircuitBreaker) (req : loc)
    (resp : Response) (st : State) : DoResult * State :=
  if code_in (StatusCode resp) trackedCodes then
    match trackError b with
    | None => (DoPanic, st)
    | Some hook =>
        (DoErr (Some (Sentinel errTrackableStatusCodeError)),
         instr (CBTrackedStatusCode req (StatusCode resp))
               (set_totalTrackedErrors hook st))
    end
  else (DoErr None, st).

(** What the command [name] is told about one call. *)
Definition hystrix_report (name : string) (err : option error) (st : State)
  : State :=
  set_hystrix_log (fun l => l ++ [(name, err)]) st.

(** Modelled from the spec: [hystrix.Do(name, run, nil)] of the
    third-party package [github.com/afex/hystrix-go], which is not part of
    the repository.  An open circuit and a full concurrency gate reject
    the call without running [run]; otherwise [run] is executed and, with
    no fallback, its error is the error of the call, unless the command
    timed out first.  Every call is reported to the command. *)
Definition hystrix_Do {V : Type} (name : string)
    (run : V * State -> DoResult * (V * State)) (s : V * State)
  : DoResult * (V * State) :=
  match env_gate env name (world s.2) with
  | GateOpen =>
      (DoErr (Some (Sentinel hystrix_ErrCircuitOpen)),
       (s.1, hystrix_report name (Some (Sentinel hystrix_ErrCircuitOpen)) s.2))
  | GateMaxConcurrency =>
      (DoErr (Some (Sentinel hystrix_ErrMaxConcurrency)),
       (s.1, hystrix_report name (Some (Sentinel hystrix_ErrMaxConcurrency)) s.2))
  | GateRun =>
      match run s with
      | (DoPanic, s') => (DoPanic, s')
      | (DoErr err, s') => (DoErr err, (s'.1, hystrix_report name err s'.2))
      end
  | GateTimedOut =>
      match run s with
      | (DoPanic, s') => (DoPanic, s')
      | (DoErr _, s') =>
          (DoErr (Some (Sentinel hystrix_ErrTimeout)),
           (s'.1, hystrix_report name (Some (Sentinel hystrix_ErrTimeout)) s'.2))
      end
  end.

(** The function handed to [hystrix.Do]; it captures [resp]. *)
Definition cb_run (b : CircuitBreaker) (doFunc : requestClosure) (req : loc)
    (s : option Response * State) : DoResult * (option Response * State) :=
  match doFunc req s.2 with
  | (Panicked, st) => (DoPanic, (s.1, st))
  | (Returned resp innerErr, st) =>
      match innerErr with
      | Some e => (DoErr (Some e), (resp, st))
      | None =>
          match resp with
          | None => (DoPanic, (resp, st))
          | Some r =>
              let '(res, st) := outErrorBasedOnResponseCode b req r st in
              (res, (resp, st))
          end
      end
  end.

(** The switch on the error of [hystrix.Do]. *)
Definition cb_result (req : loc) (resp : option Response) (err : option error)
    (st : State) : Outcome * State :=
  match err with
  | Some (Sentinel hystrix_ErrCircuitOpen) =>
      (Returned resp (Some (Sentinel ErrCircuitIsOpen)),
       instr (CBCircuitOpen req) st)
  | Some (Sentinel hystrix_ErrMaxConcurrency) =>
      (Returned resp (Some (Sentinel ErrCircuitMaxConcurrencyReached)), st)
  | Some (Sentinel hystrix_ErrTimeout) =>
      (Returned resp (Some (Sentinel ErrCircuitTimeout)), st)
  | None | Some (Sentinel errTrackableStatusCodeError) =>
      (Returned resp None, st)
  | Some _ => (Returned resp err, st)
  end.

Definition CircuitBreaker_buildMiddleware (b : CircuitBreaker)
    (doFunc : requestClosure) : requestClosure :=
  fun req st =>
    match hystrix_Do (cb_name b) (cb_run b doFunc req) (None, st) with
    | (DoPanic, (_, st)) => (Panicked, st)
    | (DoErr err, (resp, st)) => cb_result req resp err st
    end.

Definition CircuitBreaker_addMiddleware (b : option CircuitBreaker)
    (doFunc : requestClosure) : requestClosure :=
  match b with
  | None => doFunc
  | Some b => CircuitBreaker_buildMiddleware b doFunc
  end.

(** [doInitOnce] has a pointer receiver and begins with a nil check. *)
Definition CircuitBreaker_doInitOnce (b : option CircuitBreaker) (name : string)
    (st : State) : option CircuitBreaker * State :=
  match b with
  | None =>
      (None,
       instr (InitWarning
                "no circuit breaker has been configured.  CB use is strongly recommended")
             st)
  | Some b =>
      let b := {| ErrorPercentThreshold := ErrorPercentThreshold b;
                  MaxConcurrentRequests := MaxConcurrentRequests b;
                  cb_name := name; trackError := trackError b |} in
      let timeout := getTimeout b in
      let '(maxConcurrent, st) := getMaxConcurrent b st in
      let '(errorPercent, st) := getErrorPercent b st in
      let st := set_hystrix_config
                  (fun l => l ++ [(name, {| cc_Timeout := timeout;
                                            cc_MaxConcurrentRequests := maxConcurrent;
                                            cc_ErrorPercentThreshold := errorPercent |})])
                  st in
      (Some {| ErrorPercentThreshold := ErrorPercentThreshold b;
               MaxConcurrentRequests := MaxConcurrentRequests b;
               cb_name := name;
               trackError := match trackError b with
                             | None => Some (fun n => n)
                             | Some hook => Some hook
                             end |}, st)
  end.

(** ** singleflight.go *)

Definition DefaultSFKeyGenerator (r : Request) : string :=
  Method r +:+ "||" +:+ url_String (URL r).

(** Modelled from the spec: [singleflight.Group.Do] of the third-party
    package [golang.org/x/sync/singleflight], which is not part of the
    repository, as one caller sees it.  When a call for [key] is in flight
    the caller is suspended and receives that call's result without
    running [fn]; otherwise it runs [fn] and receives its result.  The
    keys presented to the group are recorded in [sf_calls]. *)
Definition group_Do {V : Type} (key : string)
    (fn : V * State -> Outcome * (V * State)) (s : V * State)
  : Outcome * (V * State) :=
  let s := (s.1, set_sf_calls (fun l => l ++ [key]) s.2) in
  match env_peer env key (world s.2) with
  | Some (resp, err) => (Returned resp err, s)
  | None => fn s
  end.

(** The function handed to [s.group.Do]; it captures [innerErr]. *)
Definition sf_fn (doFunc : requestClosure) (req : loc)
    (s : option error * State) : Outcome * (option error * State) :=
  match doFunc req s.2 with
  | (Panicked, st) => (Panicked, (s.1, st))
  | (Returned resp innerErr, st) => (Returned resp innerErr, (innerErr, st))
  end.

Definition Singleflight_buildMiddleware (s : Singleflight)
    (doFunc : requestClosure) : requestClosure :=
  fun req st =>
    match reqs st !! req with
    | None => (Panicked, st)
    | Some r =>
        if match KeyGenerator s with None => true | Some _ => false end
           && negb (String.eqb (Method r) http_MethodGet)
        then doFunc req st
        else
          match actualKeyGenerator s, trackKey s with
          | Some generate, Some hook =>
              let key := generate r in
              let st := set_trackedKeys (hook key) st in
              match group_Do key (sf_fn doFunc req) (None, st) with
              | (Panicked, (_, st)) => (Panicked, st)
              | (Returned result err, (innerErr, st)) =>
                  let st := match err, innerErr with
                            | Some e, None => instr (SingleflightErr req e) st
                            | _, _ => st
                            end in
                  (Returned result err, st)
              end
          | _, _ => (Panicked, st)
          end
    end.

Definition Singleflight_addMiddleware (s : option Singleflight)
    (doFunc : requestClosure) : requestClosure :=
  match s with
  | None => doFunc
  | Some s => Singleflight_buildMiddleware s doFunc
  end.

(** [doInitOnce] for a receiver that is not nil, as [Client.doInitOnce]
    calls it. *)
Definition Singleflight_doInitOnce (s : Singleflight) : Singleflight :=
  {| KeyGenerator := KeyGenerator s;
     actualKeyGenerator := match KeyGenerator s with
                           | Some generate => Some generate
                           | None => Some DefaultSFKeyGenerator
                           end;
     trackKey := match trackKey s with
                 | None => Some (fun _ keys => keys)
                 | Some hook => Some hook
                 end |}.

(** ** The client: [Client.Do] *)

(** [doInitOnce]. *)
Definition Client_doInitOnce (c : Client) (st : State) : Client * State :=
  let instrumentation := default noopInstrumentation (ClientInstrumentation c) in
  let timeout := if (ClientTimeout c =? 0)%Z then defaultTimeout
                 else ClientTimeout c in
  let connectTimeout := if (ConnectTimeout c =? 0)%Z then defaultConnectTimeout
                        else ConnectTimeout c in
  let client := match ClientClient c with
                | None => buildClient timeout connectTimeout
                | Some cl => cl
                end in
  let '(name, st) :=
    if String.eqb (Name c) "" then
      ("smart-http-" +:+ env_UnixNano env (world st),
       instr (InitWarning
                "name was not supplied.  Use of unique and informative names is strongly recommended")
             st)
    else (Name c, st) in
  let st := instr (Init name) st in
  let '(cb, st) :=
    CircuitBreaker_doInitOnce (Some (ClientCircuitBreaker c)) name st in
  let '(retries, st) :=
    match ClientRetries c with
    | Some r => let '(r, st) := Retries_doInitOnce r st in (Some r, st)
    | None => (None, st)
    end in
  let singleflight := Singleflight_doInitOnce <$> ClientSingleflight c in
  ({| Name := name; ClientClient := Some client; clientInitOnce := true;
      ClientTimeout := timeout; ConnectTimeout := connectTimeout;
      ClientInstrumentation := Some instrumentation;
      ClientCircuitBreaker := default (ClientCircuitBreaker c) cb;
      ClientRetries := retries;
      ClientSingleflight := singleflight |}, st).

(** [c.clientInitOnce.Do(c.doInitOnce)]. *)
Definition Client_init (c : Client) (st : State) : Client * State :=
  if clientInitOnce c then (c, st) else Client_doInitOnce c st.

(** The middleware stack of [Client.Do] around the base executor. *)
Definition Client_stack (c : Client) (endpointTag : string) : requestClosure :=
  let doRequestFunc := doRequestFunc (ClientClient c) endpointTag in
  let doRequestFunc := Retries_addMiddleware (ClientRetries c) doRequestFunc in
  let doRequestFunc :=
    CircuitBreaker_addMiddleware (Some (ClientCircuitBreaker c)) doRequestFunc in
  let doRequestFunc :=
    Singleflight_addMiddleware (ClientSingleflight c) doRequestFunc in
  doRequestFunc.

Definition Client_Do (c : Client) (req : loc) (st : State)
  : Outcome * (Client * State) :=
  let '(c, st) := Client_init c st in
  match reqs st !! req with
  | None => (Panicked, (c, st))
  | Some r =>
      let instrumentation := default noopInstrumentation (ClientInstrumentation c) in
      let path := SanitizePath instrumentation (url_Path (URL r)) in
      let endpointTag := generateEndpointTag (Method r) path in
      let '(res, st) := Client_stack c endpointTag req st in
      (res, (c, instr (DoDuration endpointTag) st))
  end.

End Pipeline.

(** ** Runs of retriable attempts *)

(** An outcome of the wrapped executor that the retry policy retries: an
    error that is [ErrTimeout], or a response with one of the retriable
    status codes. *)
Definition retriable_pair (resp : option Response) (err : option error) : bool :=
  match err with
  | Some e => errors_Is e ErrTimeout
  | None =>
      match resp with
      | Some r => code_in (StatusCode r) retriableCodes
      | None => false
      end
  end.

(** The code reported with [RetryRetriable] for such an outcome. *)
Definition retriable_code (resp : option Response) (err : option error) : Z :=
  match err, resp with
  | Some _, _ => 666
  | None, Some r => StatusCode r
  | None, None => 0
  end.

Section Runs.

Context {W : Type} (env : Env W).

(** [retriable_run doFunc n attempts s resp err st']: starting from the
    variables and state [s], with [attempts] tries already made, the next
    [n] tries are all made (the context stays live, every clone succeeds)
    and every one of them has a retriable outcome; the last of them
    returned [(resp, err)] and left the state [st']. *)
Inductive retriable_run (doFunc : @requestClosure W)
  : nat -> nat -> RetryVars * State W -> option Response -> option error
    -> State W -> Prop :=
| retriable_last attempts s v st resp err st' :
    env_ctxErr env (world s.2) = None ->
    retry_prepare s = (None, (v, st)) ->
    doFunc (rv_req v) st = (Returned resp err, st') ->
    retriable_pair resp err = true ->
    retriable_run doFunc 1 attempts s resp err
      (instr (RetryRetriable (rv_req v) (retriable_code resp err)) st')
| retriable_more n attempts s v st resp err st' resp' err' st'' :
    env_ctxErr env (world s.2) = None ->
    retry_prepare s = (None, (v, st)) ->
    doFunc (rv_req v) st = (Returned resp err, st') ->
    retriable_pair resp err = true ->
    retriable_run doFunc (S n) (S attempts)
      (rv_returned v resp err,
       set_world (env_sleep env (S attempts))
         (instr (RetryRetriable (rv_req v) (retriable_code resp err)) st'))
      resp' err' st'' ->
    retriable_run doFunc (S (S n)) attempts s resp' err' st''.

End Runs.

(** What the command is told about a call it runs: the error of the
    wrapped layer, or the tracked-status error, or nil. *)
Definition breaker_report (resp : option Response) (err : option error)
  : option error :=
  match err, resp with
  | Some e, _ => Some e
  | None, Some r =>
      if code_in (StatusCode r) trackedCodes
      then Some (Sentinel errTrackableStatusCodeError) else None
  | None, None => None
  end.

(** ** Bodies across the attempts *)

(** The request [r] with its body replaced. *)
Definition with_Body (r : Request) (body : loc) : Request :=
  {| Method := Method r; URL := URL r; Body := Some body |}.

(** A reader over [data] that nobody has read from, and one that has been
    read to its end. *)
Definition intact (data : list byte) : Reader :=
  {| pending := data; fault := None |}.

Definition drained : Reader := {| pending := []; fault := None |}.

(** The invariant of the retrier's loop around the base executor, for a
    call whose request [req0] came with the body reader [body] holding
    [data].  [views] are the requests the network has seen since the call
    began and [locs] the readers they carried. *)
Definition retry_inv {W : Type} (data : list byte) (rq : Request)
    (body req0 b0 : loc) (wire0 : list ReqView)
    (s : RetryVars * State W) (views : list ReqView) (locs : list loc) : Prop :=
  readers s.2 !! body = Some drained /\
  reqs s.2 !! req0 = Some (with_Body rq b0) /\
  wire s.2 = wire0 ++ views /\
  (view_Body <$> views) = ((fun l => Some (l, data)) <$> locs) /\
  NoDup locs /\
  Forall (fun l => l < length (readers s.2) /\ l <> body) locs /\
  (exists c rdc,
      rv_reqClone s.1 = Some c /\ c <> req0 /\
      reqs s.2 !! c = Some (with_Body rq rdc) /\
      readers s.2 !! rdc = Some (intact data) /\
      rdc <> body /\ (rdc ∉ locs) /\
      (rv_isFirstTry s.1 = true -> rdc <> b0)) /\
  (if rv_isFirstTry s.1
   then rv_req s.1 = req0 /\ locs = [] /\
        readers s.2 !! b0 = Some (intact data) /\ b0 <> body
   else head locs = Some b0).

(** ** Runs that end with an outcome that is not retried *)

Section FinalRuns.

Context {W : Type} (env : Env W).

(** The state after the report (if any) that follows an outcome that is
    not retried. *)
Definition final_state (req : loc) (resp : option Response)
    (err : option error) (st : State W) : State W :=
  match err, resp with
  | None, Some r =>
      match retryClass (StatusCode r) with
      | NonRetriable => instr (RetryNonRetriable req (StatusCode r)) st
      | _ => st
      end
  | _, _ => st
  end.

(** [retry_run doFunc n attempts s resp err st']: with [n] tries left and
    [attempts] made, the coming tries have retriable outcomes until one,
    made before the tries run out, returns the pair [(resp, err)], which
    is not retriable, and leaves the state [st']. *)
Inductive retry_run (doFunc : @requestClosure W)
  : nat -> nat -> RetryVars * State W -> option Response -> option error
    -> State W -> Prop :=
| retry_run_final n attempts s v st resp err st' :
    env_ctxErr env (world s.2) = None ->
    retry_prepare s = (None, (v, st)) ->
    doFunc (rv_req v) st = (Returned resp err, st') ->
    retriable_pair resp err = false ->
    errors_Is_opt err errRetryAllowed = false ->
    resp <> None \/ err <> None ->
    retry_run doFunc (S n) attempts s resp err
      (final_state (rv_req v) resp err st')
| retry_run_again n attempts s v st resp err st' resp' err' st'' :
    env_ctxErr env (world s.2) = None ->
    retry_prepare s = (None, (v, st)) ->
    doFunc (rv_req v) st = (Returned resp err, st') ->
    retriable_pair resp err = true ->
    retry_run doFunc (S n) (S attempts)
      (rv_returned v resp err,
       set_world (env_sleep env (S attempts))
         (instr (RetryRetriable (rv_req v) (retriable_code resp err)) st'))
      resp' err' st'' ->
    retry_run doFunc (S (S n)) attempts s resp' err' st''.

End FinalRuns.

(** ** The configuration of the shop service *)

(** [os.Getenv]: a variable that is not set reads as the empty string. *)
Definition Getenv (environ : gmap string string) (key : string) : string :=
  default "" (environ !! key).

Definition is_digit (c : Ascii.ascii) : bool :=
  (48 <=? Ascii.nat_of_ascii c) && (Ascii.nat_of_ascii c <=? 57).

Definition maxUint64 : Z := 2 ^ 64 - 1.
Definition int64_cutoff : Z := 2 ^ 63.

(** The digit loop of [strconv.ParseUint] in base 10: it stops at the
    first byte that is no digit, or as soon as the value passes
    [maxUint64], whichever comes first. *)
Inductive DigitsResult : Type :=
| DigitsOk (n : Z)
| DigitsSyntax
| DigitsRange.

Fixpoint parse_digits (s : string) (acc : Z) : DigitsResult :=
  match s with
  | EmptyString => DigitsOk acc
  | String c rest =>
      if is_digit c then
        let n := (acc * 10 + Z.of_nat (Ascii.nat_of_ascii c - 48))%Z in
        if (maxUint64 <? n)%Z then DigitsRange else parse_digits rest n
      else DigitsSyntax
  end.

(** The result of [strconv.Atoi]: the value and a nil error, a syntax
    error (with the value 0), or a range error (with the nearest
    [int64]). *)
Inductive AtoiResult : Type :=
| AtoiOk (v : Z)
| AtoiSyntax
| AtoiRange (v : Z).

Definition Atoi (s : string) : AtoiResult :=
  match s with
  | EmptyString => AtoiSyntax
  | String c rest =>
      let neg := Ascii.eqb c "-"%char in
      let digits := if neg || Ascii.eqb c "+"%char then rest else s in
      match digits with
      | EmptyString => AtoiSyntax
      | _ =>
          match parse_digits digits 0 with
          | DigitsSyntax => AtoiSyntax
          | DigitsRange =>
              AtoiRange (if neg then - int64_cutoff else int64_cutoff - 1)%Z
          | DigitsOk n =>
              if neg then
                if (int64_cutoff <? n)%Z then AtoiRange (- int64_cutoff)%Z
                else AtoiOk (- n)%Z
              else
                if (int64_cutoff <=? n)%Z then AtoiRange (int64_cutoff - 1)%Z
                else AtoiOk n
          end
      end
  end.

(** [int64] arithmetic wraps around. *)
Definition wrap64 (z : Z) : Z :=
  ((z + int64_cutoff) mod 2 ^ 64 - int64_cutoff)%Z.

Definition Millisecond : Z := 1000000.
Definition Second : Z := 1000000000.

(** [time.Duration(v) * unit]. *)
Definition duration_of (v unit : Z) : Z := wrap64 (v * unit).

Definition httpClientTimeoutDefault : Z := 5 * Second.
Definition httpRetryAttemptsDefault : Z := 3.
Definition httpRetryDelayDefault : Z := 10 * Millisecond.
Definition httpRetryMaxDelayDefault : Z := 1 * Second.
Definition httpMaxConcurrencyDefault : Z := 10.

(** The five results of [getHTTPClientConfig]. *)
Record HTTPClientConfig := {
  cliTimeout : Z;
  retryDelay : Z;
  retryMaxDelay : Z;
  retryAttempts : Z;
  concurrency : Z
}.

Definition getHTTPClientConfig (environ : gmap string string) : HTTPClientConfig :=
  {| cliTimeout :=
       match Atoi (Getenv environ "HTTP_CLIENT_TIMEOUT_MS") with
       | AtoiOk v => duration_of v Millisecond
       | _ => httpClientTimeoutDefault
       end;
     retryDelay :=
       match Atoi (Getenv environ "HTTP_RETRY_DELAY_MS") with
       | AtoiOk v => duration_of v Millisecond
       | _ => httpRetryDelayDefault
       end;
     retryMaxDelay :=
       match Atoi (Getenv environ "HTTP_RETRY_MAX_DELAY_MS") with
       | AtoiOk v => duration_of v Millisecond
       | _ => httpRetryMaxDelayDefault
       end;
     retryAttempts :=
       match Atoi (Getenv environ "HTTP_RETRY_ATTEMPTS") with
       | AtoiOk v => v
       | _ => httpRetryAttemptsDefault
       end;
     concurrency :=
       match Atoi (Getenv environ "HTTP_CLIENT_MAX_CONCURRENCY") with
       | AtoiOk v => v
       | _ => httpMaxConcurrencyDefault
       end |}.

(** The [smarthttp.Client] that [newAppContext] of [cmd/main.go] builds
    from the configuration; its [http.Client] has no transport of its
    own. *)
Definition newAppContext_client (cfg : HTTPClientConfig) : Client :=
  {| Name := "smarthttp";
     ClientClient := Some {| hc_Timeout := cliTimeout cfg; hc_Transport := None |};
     clientInitOnce := false;
     ClientTimeout := 0; ConnectTimeout := 0;
     ClientInstrumentation := None;
     ClientCircuitBreaker :=
       {| ErrorPercentThreshold := 0;
          MaxConcurrentRequests := concurrency cfg;
          cb_name := ""; trackError := None |};
     ClientRetries :=
       Some {| MaxAttempts := retryAttempts cfg; BaseDelay := retryDelay cfg;
               MaxDelay := retryMaxDelay cfg; retrier := None |};
     ClientSingleflight := None |}.

(** A string without the separator byte of [DefaultSFKeyGenerator]. *)
Fixpoint no_bar (s : string) : bool :=
  match s with
  | EmptyString => true
  | String c rest => negb (Ascii.eqb c "|"%char) && no_bar rest
  end.

(** ** A scripted world

    The world used to run the model on concrete inputs: the network
    answers from a list of prepared results, the context and the hystrix
    command do not change during a call, and no other caller is in
    flight. *)

Record Script := {
  replies : list HttpResult;
  script_ctx : option error;
  script_gate : Gate
}.

Definition reply_status (code : Z) (consumed : nat) : HttpResult :=
  {| http_resp := Some {| StatusCode := code; Payload := [] |};
     http_err := None; http_consumed := consumed; http_dialErr := None |}.

Definition reply_error (resp : option Response) (err : error) : HttpResult :=
  {| http_resp := resp; http_err := Some err; http_consumed := 0;
     http_dialErr := None |}.


(** An [http.Client] with the default transport, and the one the package
    builds for itself. *)
Definition plain_client : http_Client :=
  {| hc_Timeout := 0; hc_Transport := None |}.

Definition package_client : http_Client :=
  buildClient defaultTimeout defaultConnectTimeout.

Definition script_env : Env Script :=
  {| env_httpDo := fun _ w =>
       match replies w with
       | [] => (reply_error None (UrlError "Get" "" (Sentinel (errors_New "EOF"))), w)
       | res :: rest =>
           (res, {| replies := rest; script_ctx := script_ctx w;
                    script_gate := script_gate w |})
       end;
     env_ctxErr := script_ctx;
     env_sleep := fun _ w => w;
     env_gate := fun _ w => script_gate w;
     env_peer := fun _ _ => None;
     env_UnixNano := fun _ => "0" |}.

Definition script (l : list HttpResult) : Script :=
  {| replies := l; script_ctx := None; script_gate := GateRun |}.

(** A state holding the requests [rs] and the body readers [rds]. *)
Definition state_of {W : Type} (rs : list Request) (rds : list Reader) (w : W)
  : State W :=
  {| reqs := rs; readers := rds; events := []; wire := [];
     hystrix_config := []; hystrix_log := []; sf_calls := [];
     totalTrackedErrors := 0; trackedKeys := []; world := w |}.

Definition example_url : Url :=
  {| url_String := "http://shop/items?id=7"; url_Path := "/items" |}.

Definition get_request : Request :=
  {| Method := "GET"; URL := example_url; Body := None |}.

Definition head_request : Request :=
  {| Method := "HEAD"; URL := example_url; Body := None |}.

Definition post_request : Request :=
  {| Method := "POST"; URL := example_url; Body := Some 0 |}.

Definition example_body : Reader :=
  {| pending := [x68; x69]%byte; fault := None |}.

(** A network on which every request times out while the client awaits
    the headers; [ctx] is the error of the caller's context. *)
Definition timing_out_env (ctx : option error) : Env unit :=
  {| env_httpDo := fun view w =>
       (reply_error None
          (UrlError (urlErrorOp (view_Method view)) (url_String (view_URL view))
             (NetError "awaiting headers" true)), w);
     env_ctxErr := fun _ => ctx;
     env_sleep := fun _ w => w;
     env_gate := fun _ _ => GateRun;
     env_peer := fun _ _ => None;
     env_UnixNano := fun _ => "0" |}.

(** ** What the specification calls things *)

(** The codes the specification lists as retriable. *)
Definition spec_retriable (code : Z) : Prop :=
  code = 408%Z \/ code = 500%Z \/ code = 503%Z \/ code = 504%Z.

(** The codes the specification lists as non-retriable: 400-417, 421-431,
    451, 501, 502 and 505-511, without the retriable ones. *)
Definition spec_nonRetriable (code : Z) : Prop :=
  ((400 <= code <= 417)%Z \/ (421 <= code <= 431)%Z \/ code = 451%Z \/
   code = 501%Z \/ code = 502%Z \/ (505 <= code <= 511)%Z)
  /\ ~ spec_retriable code.

(** The codes the specification lists as tracked by the breaker. *)
Definition spec_tracked (code : Z) : Prop :=
  code = 408%Z \/ code = 429%Z \/ code = 500%Z \/ code = 501%Z \/
  code = 502%Z \/ code = 503%Z \/ code = 504%Z \/ code = 505%Z \/
  code = 506%Z \/ code = 507%Z \/ code = 508%Z \/ code = 510%Z \/
  code = 511%Z.

(** The methods without side effects (the safe methods of HTTP). *)
Definition spec_safe_method (method : string) : Prop :=
  method = "GET" \/ method = "HEAD" \/ method = "OPTIONS" \/ method = "TRACE".

(** * Properties *)

(** ** Errors *)

Lemma errors_Is_unique (err : error) (s1 s2 : sentinel) :
  errors_Is err s1 = true -> errors_Is err s2 = true -> s1 = s2.
Proof.
  induction err as [s | f w IHw a _ | op url inner IH | msg t]; simpl.
  - intros H1 H2. apply bool_decide_eq_true in H1, H2. congruence.
  - exact IHw.
  - exact IH.
  - discriminate.
Qed.

Lemma errors_Is_Sentinel (s t : sentinel) :
  errors_Is (Sentinel s) t = true <-> s = t.
Proof. simpl. apply bool_decide_eq_true. Qed.

(** ** C4: the base executor's classification of failures *)




Section BaseClassification.

Context {W : Type} (env : Env W).




End BaseClassification.


(** ** Status code sets *)

Lemma code_in_In (code : Z) (codes : list Z) :
  code_in code codes = true <-> In code codes.
Proof.
  unfold code_in. rewrite existsb_exists. split.
  - intros (x & Hx & Heq). apply Z.eqb_eq in Heq. subst. exact Hx.
  - intros Hin. exists code. split; [exact Hin | apply Z.eqb_refl].
Qed.

Lemma code_in_false (code : Z) (codes : list Z) :
  code_in code codes = false <-> ~ In code codes.
Proof.
  rewrite <- code_in_In. destruct (code_in code codes); split; intros H;
    try reflexivity; try discriminate; try (intros H'; discriminate).
  exfalso. apply H. reflexivity.
Qed.

Lemma trackedCodes_spec (code : Z) :
  code_in code trackedCodes = true <-> spec_tracked code.
Proof.
  rewrite code_in_In. unfold trackedCodes, spec_tracked. simpl.
  intuition congruence.
Qed.

Lemma retriableCodes_spec (code : Z) :
  code_in code retriableCodes = true <-> spec_retriable code.
Proof.
  rewrite code_in_In. unfold retriableCodes, spec_retriable. simpl.
  intuition congruence.
Qed.

Lemma retryClass_Retriable (code : Z) :
  retryClass code = Retriable <-> spec_retriable code.
Proof.
  rewrite <- retriableCodes_spec. unfold retryClass. split.
  - destruct (code_in code nonRetriableCodes); [discriminate |].
    destruct (code_in code retriableCodes); [reflexivity | discriminate].
  - intros H. rewrite H.
    apply code_in_In in H. unfold retriableCodes in H. simpl in H.
    destruct H as [<- | [<- | [<- | [<- | []]]]]; reflexivity.
Qed.

(** The first case of the switch in [Retries.buildMiddleware] against the
    set the specification names: the code lists 418 as well, and does not
    list 409, 427, 430 and 509; a status code is classed as non-retriable
    exactly when it is in that list, and 409, 427, 430 and 509, which are
    in neither list, take the default branch. *)
Lemma nonRetriableCodes_exact (code : Z) :
  (code_in code nonRetriableCodes = true <->
   (spec_nonRetriable code /\
    code <> 409%Z /\ code <> 427%Z /\ code <> 430%Z /\ code <> 509%Z) \/
   code = 418%Z) /\
  (retryClass code = NonRetriable <->
   (spec_nonRetriable code /\
    code <> 409%Z /\ code <> 427%Z /\ code <> 430%Z /\ code <> 509%Z) \/
   code = 418%Z) /\
  (retryClass code = HappyPath <->
   ~ spec_retriable code /\
   ~ ((spec_nonRetriable code /\
       code <> 409%Z /\ code <> 427%Z /\ code <> 430%Z /\ code <> 509%Z) \/
      code = 418%Z)) /\
  retryClass 409 = HappyPath /\ retryClass 427 = HappyPath /\
  retryClass 430 = HappyPath /\ retryClass 509 = HappyPath.
Proof.
  assert (Hlist : code_in code nonRetriableCodes = true <->
                  (spec_nonRetriable code /\
                   code <> 409%Z /\ code <> 427%Z /\ code <> 430%Z /\
                   code <> 509%Z) \/ code = 418%Z).
  { rewrite code_in_In.
    unfold nonRetriableCodes, spec_nonRetriable, spec_retriable. simpl. lia. }
  assert (Hretr : code_in code retriableCodes = true <-> spec_retriable code).
  { rewrite code_in_In. unfold retriableCodes, spec_retriable. simpl. lia. }
  split; [exact Hlist |]. split; [| split; [| repeat split]].
  - rewrite <- Hlist. unfold retryClass.
    destruct (code_in code nonRetriableCodes); [split; reflexivity |].
    destruct (code_in code retriableCodes); split; discriminate.
  - rewrite <- Hlist, <- Hretr. unfold retryClass.
    destruct (code_in code nonRetriableCodes).
    + split; [discriminate | intros [_ H]; destruct H; reflexivity].
    + destruct (code_in code retriableCodes).
      * split; [discriminate | intros [H _]; destruct H; reflexivity].
      * split; [intros _; split; discriminate | reflexivity].
Qed.

(** ** C5: the error threshold of the breaker *)

(** C5: at the floor itself the configured value is refused. With
    [ErrorPercentThreshold] set to 50, the value the field's comment
    allows (it cannot be set below 50), [getErrorPercent] reports the
    warning and returns the default of 80. *)
Theorem C5_getErrorPercent_at_floor {W : Type} (st : State W)
    (maxConcurrent : Z) (name : string) (hook : option (Z -> Z)) :
  getErrorPercent
    {| ErrorPercentThreshold := 50; MaxConcurrentRequests := maxConcurrent;
       cb_name := name; trackError := hook |} st
  = (80%Z,
     instr (InitWarning
              "using default 'error threshold' setting for circuit breaker") st).
Proof. reflexivity. Qed.

(** Above the floor the configured value is used and nothing is
    reported. *)
Lemma getErrorPercent_above {W : Type} (b : CircuitBreaker) (st : State W) :
  (50 < ErrorPercentThreshold b)%Z ->
  getErrorPercent b st = (ErrorPercentThreshold b, st).
Proof.
  intros H. unfold getErrorPercent, minErrorThreshold.
  apply Z.ltb_lt in H. rewrite H. reflexivity.
Qed.

(** At or below the floor (a missing value is 0) the default is used and
    the warning is reported. *)
Lemma getErrorPercent_default {W : Type} (b : CircuitBreaker) (st : State W) :
  (ErrorPercentThreshold b <= 50)%Z ->
  getErrorPercent b st
  = (80%Z,
     instr (InitWarning
              "using default 'error threshold' setting for circuit breaker") st).
Proof.
  intros H. unfold getErrorPercent, minErrorThreshold.
  destruct (Z.ltb_spec 50 (ErrorPercentThreshold b)); [lia | reflexivity].
Qed.

Section Properties.

Context {W : Type} (env : Env W).

Abbreviation State := (State W).
Abbreviation requestClosure := (@requestClosure W).

(** ** C3: what the breaker counts as a failure *)

(** C3: when the command runs the call and the wrapped layer returns a
    response with a nil error, the function handed to hystrix fails
    (with the tracked-status error, after [CBTrackedStatusCode] was
    reported) exactly for the thirteen listed codes, and succeeds for
    every other code; either way the caller receives the same response
    with a nil error. *)
Theorem C3_breaker_classification (b : CircuitBreaker) (hook : Z -> Z)
    (doFunc : requestClosure) (req : loc) (st st1 : State) (resp : Response) :
  env_gate env (cb_name b) (world st) = GateRun ->
  trackError b = Some hook ->
  doFunc req st = (Returned (Some resp) None, st1) ->
  (spec_tracked (StatusCode resp) ->
   cb_run b doFunc req (None, st)
   = (DoErr (Some (Sentinel errTrackableStatusCodeError)),
      (Some resp,
       instr (CBTrackedStatusCode req (StatusCode resp))
             (set_totalTrackedErrors hook st1))) /\
   CircuitBreaker_buildMiddleware env b doFunc req st
   = (Returned (Some resp) None,
      hystrix_report (cb_name b) (Some (Sentinel errTrackableStatusCodeError))
        (instr (CBTrackedStatusCode req (StatusCode resp))
               (set_totalTrackedErrors hook st1)))) /\
  (~ spec_tracked (StatusCode resp) ->
   cb_run b doFunc req (None, st) = (DoErr None, (Some resp, st1)) /\
   CircuitBreaker_buildMiddleware env b doFunc req st
   = (Returned (Some resp) None, hystrix_report (cb_name b) None st1)).
Proof.
  intros Hgate Hhook Hdo.
  unfold CircuitBreaker_buildMiddleware, hystrix_Do. simpl.
  rewrite Hgate. unfold cb_run. simpl. rewrite Hdo.
  unfold outErrorBasedOnResponseCode. rewrite Hhook.
  split; intros Hcode.
  - apply trackedCodes_spec in Hcode. rewrite Hcode. simpl. split; reflexivity.
  - destruct (code_in (StatusCode resp) trackedCodes) eqn:E.
    + exfalso. apply Hcode. apply trackedCodes_spec. exact E.
    + simpl. split; reflexivity.
Qed.

End Properties.

(** A wrapped layer that answers with the status [code]. *)
Lemma C3_breaker_classification_witness :
  let doFunc : requestClosure := fun _ st =>
    (Returned (Some {| StatusCode := 429; Payload := [] |}) None, st) in
  let b := {| ErrorPercentThreshold := 80; MaxConcurrentRequests := 10;
              cb_name := "shop"; trackError := Some Z.succ |} in
  let st := state_of [get_request] [] (script []) in
  CircuitBreaker_buildMiddleware script_env b doFunc 0 st
  = (Returned (Some {| StatusCode := 429; Payload := [] |}) None,
     hystrix_report "shop" (Some (Sentinel errTrackableStatusCodeError))
       (instr (CBTrackedStatusCode 0 429) (set_totalTrackedErrors Z.succ st))).
Proof.
  intros doFunc b st.
  apply (C3_breaker_classification script_env b Z.succ doFunc 0 st st
           {| StatusCode := 429; Payload := [] |});
    [reflexivity | reflexivity | reflexivity |].
  unfold spec_tracked. simpl. right. left. reflexivity.
Defined.

(** ** C7: when requests are coalesced, and under which key *)

(** C7 (as stated) fails for the safe methods other than GET: a HEAD
    request with no key generator goes straight to the wrapped layer and
    the group is never consulted, while the same request as a GET is
    presented to the group under the default key. *)
Lemma C7_head_is_not_coalesced :
  let s := Singleflight_doInitOnce
             {| KeyGenerator := None; actualKeyGenerator := None;
                trackKey := None |} in
  let doFunc := doRequestFunc script_env (Some plain_client) "tag" in
  let st := state_of [head_request; get_request] [] (script [reply_status 200 0]) in
  spec_safe_method (Method head_request) /\
  KeyGenerator s = None /\
  Singleflight_buildMiddleware script_env s doFunc 0 st = doFunc 0 st /\
  sf_calls (Singleflight_buildMiddleware script_env s doFunc 0 st).2 = [] /\
  sf_calls (Singleflight_buildMiddleware script_env s doFunc 1 st).2
  = ["GET||http://shop/items?id=7"].
Proof.
  repeat split; try reflexivity.
  right. left. reflexivity.
Qed.

Section Coalescing.

Context {W : Type} (env : Env W).

(** C7 (as amended): after initialisation the layer is applied if and
    only if a key generator was supplied or the method is GET.  When it
    is not applied the call is the wrapped layer's call.  When it is
    applied the key is the supplied generator's, or, with none supplied,
    the method, the separator and the URL string; the key is presented
    to the group, and the caller either receives the result of the call
    in flight for that key, without the wrapped layer being run, or runs
    the wrapped layer itself. *)
Theorem C7_coalescing_applicability (s0 : Singleflight)
    (doFunc : requestClosure) (req : loc) (st : State W) (r : Request) :
  let s := Singleflight_doInitOnce s0 in
  reqs st !! req = Some r ->
  (KeyGenerator s0 = None -> Method r <> "GET" ->
   Singleflight_buildMiddleware env s doFunc req st = doFunc req st) /\
  (KeyGenerator s0 <> None \/ Method r = "GET" ->
   exists key hook,
     trackKey s = Some hook /\
     (KeyGenerator s0 = None ->
      key = Method r +:+ "||" +:+ url_String (URL r)) /\
     (forall generate, KeyGenerator s0 = Some generate -> key = generate r) /\
     let marked := set_sf_calls (fun l => l ++ [key])
                     (set_trackedKeys (hook key) st) in
     match env_peer env key (world st) with
     | Some (resp, err) =>
         Singleflight_buildMiddleware env s doFunc req st
         = (Returned resp err,
            match err with
            | Some e => instr (SingleflightErr req e) marked
            | None => marked
            end)
     | None =>
         Singleflight_buildMiddleware env s doFunc req st = doFunc req marked
     end).
Proof.
  intros s Hreq. split.
  - intros Hgen Hmethod. unfold Singleflight_buildMiddleware.
    rewrite Hreq. subst s. simpl. rewrite Hgen. simpl.
    destruct (String.eqb_spec (Method r) http_MethodGet) as [Heq | Hne];
      [contradiction | reflexivity].
  - intros Happlied.
    set (generate := match KeyGenerator s0 with
                     | Some g => g
                     | None => DefaultSFKeyGenerator
                     end).
    set (hook := match trackKey s0 with
                 | Some h => h
                 | None => fun _ keys => keys
                 end).
    exists (generate r), hook.
    assert (Hact : actualKeyGenerator s = Some generate).
    { subst s generate. simpl. destruct (KeyGenerator s0); reflexivity. }
    assert (Hhook : trackKey s = Some hook).
    { subst s hook. simpl. destruct (trackKey s0); reflexivity. }
    split; [exact Hhook |].
    split; [intros Hnone; subst generate; rewrite Hnone; reflexivity |].
    split; [intros g Hg; subst generate; rewrite Hg; reflexivity |].
    assert (Hguard :
      (match KeyGenerator s with None => true | Some _ => false end
       && negb (String.eqb (Method r) http_MethodGet))%bool = false).
    { subst s. simpl. destruct Happlied as [Hgen | Hget].
      - destruct (KeyGenerator s0); [reflexivity | contradiction].
      - rewrite Hget. simpl. apply andb_false_r. }
    cbv zeta. unfold Singleflight_buildMiddleware.
    rewrite Hreq, Hguard, Hact, Hhook. unfold group_Do. simpl.
    destruct (env_peer env (generate r) (world st)) as [[resp err] |].
    + destruct err; reflexivity.
    + unfold sf_fn. simpl.
      destruct (doFunc req _) as [[resp err | ] st'] eqn:Hdo; simpl;
        [destruct err |]; reflexivity.
Qed.

End Coalescing.

Lemma C7_coalescing_applicability_witness :
  let s0 := {| KeyGenerator := None; actualKeyGenerator := None;
               trackKey := None |} in
  let doFunc := doRequestFunc script_env (Some plain_client) "tag" in
  let st := state_of [post_request; get_request] [example_body]
              (script [reply_status 200 0]) in
  Singleflight_buildMiddleware script_env (Singleflight_doInitOnce s0) doFunc 0 st
  = doFunc 0 st /\
  exists key hook,
    key = "GET||http://shop/items?id=7" /\
    Singleflight_buildMiddleware script_env (Singleflight_doInitOnce s0) doFunc 1 st
    = doFunc 1 (set_sf_calls (fun l => l ++ [key]) (set_trackedKeys (hook key) st)).
Proof.
  intros s0 doFunc st. split.
  - apply (C7_coalescing_applicability script_env s0 doFunc 0 st post_request);
      [reflexivity | reflexivity | discriminate].
  - destruct (C7_coalescing_applicability script_env s0 doFunc 1 st get_request
                eq_refl) as [_ H].
    destruct (H (or_intror eq_refl)) as (key & hook & _ & Hkey & _ & Hrun).
    exists key, hook. split; [exact (Hkey eq_refl) |]. exact Hrun.
Defined.

(** ** The retry layer *)

Section RetryLayer.

Context {W : Type} (env : Env W).

Abbreviation State := (State W).
Abbreviation requestClosure := (@requestClosure W).

(** The retrier that [doInitOnce] installs. *)
Lemma Retries_doInitOnce_retrier (r0 : Retries) (st0 : State) :
  retrier (Retries_doInitOnce r0 st0).1
  = Some {| rc_MaxAttempts := (getMaxAttempts r0 st0).1;
            rc_BaseDelay := if (0 <? BaseDelay r0)%Z then BaseDelay r0
                            else defaultBaseRetryDelay;
            rc_MaxDelay := if (0 <? MaxDelay r0)%Z then MaxDelay r0
                           else defaultMaxRetryDelay;
            rc_CanRetry := fun err => errors_Is err errRetryAllowed |}.
Proof.
  unfold Retries_doInitOnce, getMaxAttempts, getBaseDelay, getMaxDelay.
  destruct (0 <? MaxAttempts r0)%Z, (0 <? BaseDelay r0)%Z, (0 <? MaxDelay r0)%Z;
    reflexivity.
Qed.

Lemma getMaxAttempts_pos (r0 : Retries) (st0 : State) :
  (0 < (getMaxAttempts r0 st0).1)%Z.
Proof.
  unfold getMaxAttempts.
  destruct (Z.ltb_spec 0 (MaxAttempts r0)); simpl; [assumption | reflexivity].
Qed.

Lemma getMaxAttempts_succ (r0 : Retries) (st0 : State) :
  exists n, Z.to_nat (getMaxAttempts r0 st0).1 = S n.
Proof.
  pose proof (getMaxAttempts_pos r0 st0) as H.
  exists (Nat.pred (Z.to_nat (getMaxAttempts r0 st0).1)). lia.
Qed.

(** What the function handed to the retrier returns once the request
    was prepared and the wrapped executor has answered. *)
Lemma retry_attempt_returned (doFunc : requestClosure) (s : RetryVars * State)
    (v : RetryVars) (st st' : State) (resp : option Response)
    (err : option error) :
  retry_prepare s = (None, (v, st)) ->
  doFunc (rv_req v) st = (Returned resp err, st') ->
  retry_attempt doFunc s
  = match err with
    | Some e =>
        if errors_Is e ErrTimeout then
          (DoErr (Some (Sentinel errRetryAllowed)),
           (rv_returned v resp err, instr (RetryRetriable (rv_req v) 666) st'))
        else (DoErr (Some e), (rv_returned v resp err, st'))
    | None =>
        match resp with
        | None => (DoPanic, (rv_returned v resp err, st'))
        | Some r =>
            match retryClass (StatusCode r) with
            | NonRetriable =>
                (DoErr (Some (Sentinel errRetryImpossible)),
                 (rv_returned v resp err,
                  instr (RetryNonRetriable (rv_req v) (StatusCode r)) st'))
            | Retriable =>
                (DoErr (Some (Sentinel errRetryAllowed)),
                 (rv_returned v resp err,
                  instr (RetryRetriable (rv_req v) (StatusCode r)) st'))
            | HappyPath => (DoErr None, (rv_returned v resp err, st'))
            end
        end
    end.
Proof.
  intros Hprep Hdo. unfold retry_attempt. rewrite Hprep, Hdo. reflexivity.
Qed.

(** A retriable outcome makes the function return [errRetryAllowed] and
    report [RetryRetriable]. *)
Lemma retry_attempt_retriable (doFunc : requestClosure) (s : RetryVars * State)
    (v : RetryVars) (st st' : State) (resp : option Response)
    (err : option error) :
  retry_prepare s = (None, (v, st)) ->
  doFunc (rv_req v) st = (Returned resp err, st') ->
  retriable_pair resp err = true ->
  retry_attempt doFunc s
  = (DoErr (Some (Sentinel errRetryAllowed)),
     (rv_returned v resp err,
      instr (RetryRetriable (rv_req v) (retriable_code resp err)) st')).
Proof.
  intros Hprep Hdo Hpair.
  rewrite (retry_attempt_returned doFunc s v st st' resp err Hprep Hdo).
  unfold retriable_pair in Hpair. unfold retriable_code.
  destruct err as [e |].
  - rewrite Hpair. reflexivity.
  - destruct resp as [r |]; [| discriminate].
    apply retriableCodes_spec, retryClass_Retriable in Hpair.
    rewrite Hpair. reflexivity.
Qed.

Lemma retry_prepare_first (req reqClone : loc) (st : State) :
  retry_prepare (rv_initial req reqClone, st)
  = (None, (rv_returned (rv_initial req reqClone) None None, st)).
Proof. reflexivity. Qed.

(** An outcome that is not retried ends the call after this one attempt:
    the pair of the wrapped executor is returned as it is. *)
Lemma Retries_single_attempt (r0 : Retries) (st0 : State)
    (doFunc : requestClosure) (req reqClone : loc) (st st1 st2 : State)
    (resp : Response) :
  cloneRequest req st = (Cloned reqClone, st1) ->
  env_ctxErr env (world st1) = None ->
  doFunc req st1 = (Returned (Some resp) None, st2) ->
  ~ spec_retriable (StatusCode resp) ->
  Retries_buildMiddleware env (Retries_doInitOnce r0 st0).1 doFunc req st
  = (Returned (Some resp) None,
     match retryClass (StatusCode resp) with
     | NonRetriable => instr (RetryNonRetriable req (StatusCode resp)) st2
     | _ => st2
     end).
Proof.
  intros Hclone Hctx Hdo Hcode.
  unfold Retries_buildMiddleware. rewrite Hclone.
  rewrite Retries_doInitOnce_retrier. unfold retry_Do.
  destruct (getMaxAttempts_succ r0 st0) as [n Hn]. simpl rc_MaxAttempts.
  rewrite Hn. simpl retry_loop. rewrite Hctx.
  rewrite (retry_attempt_returned doFunc _ _ _ _ _ _
             (retry_prepare_first req reqClone st1) Hdo).
  destruct (retryClass (StatusCode resp)) eqn:Hclass.
  - reflexivity.
  - exfalso. apply Hcode. apply retryClass_Retriable. exact Hclass.
  - reflexivity.
Qed.

(** ** C1: which outcomes are retried *)

(** C1: once the request is cloned and the context is live, the first
    attempt is classified as follows.  A response with status 408, 500,
    503 or 504, and an error that is [ErrTimeout], are retriable: the
    function handed to the retrier reports [RetryRetriable] and returns
    the error that the retrier's [CanRetry] accepts.  A response with a
    status of the non-retriable set ends the call: the state is the one
    the single call of the wrapped executor left (with the report of
    [RetryNonRetriable] where the code makes one), and that response is
    returned with a nil error.  Every other status ends the call the same
    way, the response returned as a success. *)
Theorem C1_retry_eligibility (r0 : Retries) (st0 : State)
    (doFunc : requestClosure) (req reqClone : loc) (st st1 st2 : State) :
  let r := (Retries_doInitOnce r0 st0).1 in
  let v := rv_returned (rv_initial req reqClone) in
  cloneRequest req st = (Cloned reqClone, st1) ->
  env_ctxErr env (world st1) = None ->
  (exists rc, retrier r = Some rc /\
              rc_CanRetry rc (Sentinel errRetryAllowed) = true /\
              rc_CanRetry rc (Sentinel errRetryImpossible) = false) /\
  (forall resp,
      doFunc req st1 = (Returned (Some resp) None, st2) ->
      spec_retriable (StatusCode resp) ->
      retry_attempt doFunc (rv_initial req reqClone, st1)
      = (DoErr (Some (Sentinel errRetryAllowed)),
         (v (Some resp) None,
          instr (RetryRetriable req (StatusCode resp)) st2))) /\
  (forall resp e,
      doFunc req st1 = (Returned resp (Some e), st2) ->
      errors_Is e ErrTimeout = true ->
      retry_attempt doFunc (rv_initial req reqClone, st1)
      = (DoErr (Some (Sentinel errRetryAllowed)),
         (v resp (Some e), instr (RetryRetriable req 666) st2))) /\
  (forall resp,
      doFunc req st1 = (Returned (Some resp) None, st2) ->
      spec_nonRetriable (StatusCode resp) ->
      Retries_buildMiddleware env r doFunc req st
      = (Returned (Some resp) None,
         match retryClass (StatusCode resp) with
         | NonRetriable => instr (RetryNonRetriable req (StatusCode resp)) st2
         | _ => st2
         end)) /\
  (forall resp,
      doFunc req st1 = (Returned (Some resp) None, st2) ->
      ~ spec_retriable (StatusCode resp) ->
      ~ spec_nonRetriable (StatusCode resp) ->
      Retries_buildMiddleware env r doFunc req st
      = (Returned (Some resp) None,
         match retryClass (StatusCode resp) with
         | NonRetriable => instr (RetryNonRetriable req (StatusCode resp)) st2
         | _ => st2
         end)).
Proof.
  intros r v Hclone Hctx. repeat split.
  - subst r. rewrite Retries_doInitOnce_retrier. eexists. split; [reflexivity |].
    split; reflexivity.
  - intros resp Hdo Hcode.
    rewrite (retry_attempt_retriable doFunc _ _ _ _ _ _
               (retry_prepare_first req reqClone st1) Hdo); [reflexivity |].
    simpl. apply retriableCodes_spec. exact Hcode.
  - intros resp e Hdo He.
    rewrite (retry_attempt_retriable doFunc _ _ _ _ _ _
               (retry_prepare_first req reqClone st1) Hdo); [reflexivity |].
    exact He.
  - intros resp Hdo [_ Hcode].
    exact (Retries_single_attempt r0 st0 doFunc req reqClone st st1 st2 resp
             Hclone Hctx Hdo Hcode).
  - intros resp Hdo Hcode _.
    exact (Retries_single_attempt r0 st0 doFunc req reqClone st st1 st2 resp
             Hclone Hctx Hdo Hcode).
Qed.

End RetryLayer.

Lemma C1_retry_eligibility_witness :
  let r0 := {| MaxAttempts := 3; BaseDelay := 0; MaxDelay := 0; retrier := None |} in
  let st0 := state_of [] [] (script []) in
  let doFunc := doRequestFunc script_env (Some plain_client) "GET::/items" in
  let st := state_of [get_request] [] (script [reply_status 404 0; reply_status 200 0]) in
  let out := Retries_buildMiddleware script_env (Retries_doInitOnce r0 st0).1 doFunc 0 st in
  out.1 = Returned (Some {| StatusCode := 404; Payload := [] |}) None /\
  length (wire out.2) = 1.
Proof.
  intros r0 st0 doFunc st out.
  destruct (C1_retry_eligibility script_env r0 st0 doFunc 0 1 st
              (cloneRequest 0 st).2 (doFunc 0 (cloneRequest 0 st).2).2
              eq_refl eq_refl) as (_ & _ & _ & H & _).
  subst out.
  rewrite (H {| StatusCode := 404; Payload := [] |} eq_refl).
  - split; reflexivity.
  - unfold spec_nonRetriable, spec_retriable. simpl. lia.
Defined.

(** ** C9: the result when the attempts are exhausted *)

Section Exhaustion.

Context {W : Type} (env : Env W).

Lemma retriable_run_last_pair (doFunc : @requestClosure W) n attempts s resp err st' :
  retriable_run env doFunc n attempts s resp err st' ->
  retriable_pair resp err = true.
Proof. induction 1; assumption. Qed.

Lemma retry_loop_exhausted (rc : RetryClient) (doFunc : @requestClosure W)
    n attempts s resp err st' :
  rc_CanRetry rc (Sentinel errRetryAllowed) = true ->
  retriable_run env doFunc n attempts s resp err st' ->
  exists v',
    retry_loop env rc n attempts (retry_attempt doFunc) s
    = (DoErr (Some (Sentinel retry_ErrAttemptsExceeded)), (v', st')) /\
    rv_resp v' = resp /\ rv_innerErr v' = err.
Proof.
  intros Hcan Hrun.
  induction Hrun as [attempts s v st resp err st' Hctx Hprep Hdo Hpair
                    | n attempts s v st resp err st' resp' err' st''
                        Hctx Hprep Hdo Hpair Hrun IH].
  - exists (rv_returned v resp err). simpl retry_loop. rewrite Hctx.
    rewrite (retry_attempt_retriable doFunc s v st st' resp err Hprep Hdo Hpair).
    rewrite Hcan. repeat split.
  - destruct IH as (v' & Hloop & Hresp & Herr).
    exists v'. split; [| split; assumption].
    change (retry_loop env rc (S (S n)) attempts (retry_attempt doFunc) s)
      with (match env_ctxErr env (world s.2) with
            | Some e => (DoErr (Some e), s)
            | None =>
                match retry_attempt doFunc s with
                | (DoPanic, s') => (DoPanic, s')
                | (DoErr None, s') => (DoErr None, s')
                | (DoErr (Some e), s') =>
                    if rc_CanRetry rc e then
                      retry_loop env rc (S n) (S attempts) (retry_attempt doFunc)
                        (s'.1, set_world (env_sleep env (S attempts)) s'.2)
                    else (DoErr (Some e), s')
                end
            end).
    rewrite Hctx.
    rewrite (retry_attempt_retriable doFunc s v st st' resp err Hprep Hdo Hpair).
    rewrite Hcan. exact Hloop.
Qed.

(** C9: when every one of the [MaxAttempts] attempts is made and has a
    retriable outcome, the call returns the response and the error of the
    last attempt exactly as the wrapped executor returned them, and the
    state is the one that last attempt left; the error of the retrier
    ([ErrAttemptsExceeded]) is not what the caller receives. *)
Theorem C9_retry_exhaustion (r0 : Retries) (st0 : State W)
    (doFunc : @requestClosure W) (req reqClone : loc) (st st1 st' : State W)
    (resp : option Response) (err : option error) :
  cloneRequest req st = (Cloned reqClone, st1) ->
  retriable_run env doFunc (Z.to_nat (getMaxAttempts r0 st0).1) 0
    (rv_initial req reqClone, st1) resp err st' ->
  Retries_buildMiddleware env (Retries_doInitOnce r0 st0).1 doFunc req st
  = (Returned resp err, st') /\
  errors_Is_opt err retry_ErrAttemptsExceeded = false.
Proof.
  intros Hclone Hrun. split.
  - unfold Retries_buildMiddleware. rewrite Hclone.
    rewrite Retries_doInitOnce_retrier. unfold retry_Do. simpl rc_MaxAttempts.
    destruct (retry_loop_exhausted
                {| rc_MaxAttempts := (getMaxAttempts r0 st0).1;
                   rc_BaseDelay := if (0 <? BaseDelay r0)%Z then BaseDelay r0
                                   else defaultBaseRetryDelay;
                   rc_MaxDelay := if (0 <? MaxDelay r0)%Z then MaxDelay r0
                                  else defaultMaxRetryDelay;
                   rc_CanRetry := fun e => errors_Is e errRetryAllowed |}
                doFunc _ _ _ _ _ _ eq_refl Hrun) as (v' & Hloop & Hresp & Herr).
    rewrite Hloop. unfold retry_result. simpl. rewrite Hresp, Herr. reflexivity.
  - apply retriable_run_last_pair in Hrun. unfold retriable_pair in Hrun.
    destruct err as [e |]; [| reflexivity]. simpl.
    destruct (errors_Is e retry_ErrAttemptsExceeded) eqn:E; [| reflexivity].
    pose proof (errors_Is_unique e _ _ Hrun E). discriminate.
Qed.

End Exhaustion.

(** Two attempts, a 503 and then a timeout of the client: the call
    returns the timeout error of the second attempt. *)
Lemma C9_retry_exhaustion_witness :
  let r0 := {| MaxAttempts := 2; BaseDelay := 0; MaxDelay := 0; retrier := None |} in
  let st0 := state_of [] [] (script []) in
  let doFunc := doRequestFunc script_env (Some plain_client) "POST::/items" in
  let timeout := UrlError "Post" "http://shop/items" (NetError "awaiting headers" true) in
  let st := state_of [post_request] [example_body]
              (script [reply_status 503 2; reply_error None timeout]) in
  exists st',
    Retries_buildMiddleware script_env (Retries_doInitOnce r0 st0).1 doFunc 0 st
    = (Returned None (Some (Errorf "%w - %s" (Sentinel ErrTimeout) timeout)), st') /\
    length (wire st') = 2.
Proof.
  intros r0 st0 doFunc timeout st.
  pose (st1 := (cloneRequest 0 st).2).
  pose (v1 := rv_returned (rv_initial 0 1) None None).
  pose (resp1 := Some {| StatusCode := 503; Payload := [] |}).
  pose (st2 := (doFunc 0 st1).2).
  pose (s2 := (rv_returned v1 resp1 None,
               set_world (env_sleep script_env 1)
                 (instr (RetryRetriable 0 503) st2))).
  pose (p2 := (retry_prepare s2).2).
  pose (err2 := Some (Errorf "%w - %s" (Sentinel ErrTimeout) timeout)).
  pose (st3 := (doFunc (rv_req p2.1) p2.2).2).
  exists (instr (RetryRetriable (rv_req p2.1) 666) st3).
  split; [| vm_compute; reflexivity].
  apply (C9_retry_exhaustion script_env r0 st0 doFunc 0 1 st st1);
    [vm_compute; reflexivity |].
  apply (retriable_more script_env doFunc 0 0 (rv_initial 0 1, st1) v1 st1
           resp1 None st2 None err2 (instr (RetryRetriable (rv_req p2.1) 666) st3));
    [vm_compute; reflexivity | vm_compute; reflexivity | vm_compute; reflexivity
    | vm_compute; reflexivity |].
  apply (retriable_last script_env doFunc 1 s2 p2.1 p2.2 None err2 st3);
    vm_compute; reflexivity.
Defined.

(** ** C6: the response that accompanies a timeout *)

Section TimeoutResult.

Context {W : Type} (env : Env W).

Abbreviation State := (State W).
Abbreviation requestClosure := (@requestClosure W).

Lemma retry_prepare_pair (s s' : RetryVars * State) (res : option DoResult) :
  retry_prepare s = (res, s') ->
  rv_resp s'.1 = rv_resp s.1 /\ rv_innerErr s'.1 = rv_innerErr s.1.
Proof.
  destruct s as [v st]. unfold retry_prepare.
  destruct (rv_isFirstTry v).
  - intros [= <- <-]. split; reflexivity.
  - destruct (rv_reqClone v) as [c |].
    + destruct (cloneRequest c st) as [[c' | e |] st1];
        intros [= <- <-]; split; reflexivity.
    + intros [= <- <-]. split; reflexivity.
Qed.

(** What one call of the function handed to the retrier does to the
    captured pair: it stays, or it becomes the pair the wrapped executor
    returned, and the returned error is derived from it. *)
Lemma retry_attempt_pair (doFunc : requestClosure) (s s' : RetryVars * State)
    (res : DoResult) :
  retry_attempt doFunc s = (res, s') ->
  (rv_resp s'.1 = rv_resp s.1 /\ rv_innerErr s'.1 = rv_innerErr s.1) \/
  (exists q st st' , doFunc q st = (Returned (rv_resp s'.1) (rv_innerErr s'.1), st') /\
     match rv_innerErr s'.1 with
     | Some e =>
         res = if errors_Is e ErrTimeout then DoErr (Some (Sentinel errRetryAllowed))
               else DoErr (Some e)
     | None =>
         res = DoPanic \/ res = DoErr None \/
         res = DoErr (Some (Sentinel errRetryAllowed)) \/
         res = DoErr (Some (Sentinel errRetryImpossible))
     end).
Proof.
  unfold retry_attempt.
  destruct (retry_prepare s) as [[r |] [v st]] eqn:Hprep.
  - intros [= <- <-]. left. exact (retry_prepare_pair _ _ _ Hprep).
  - destruct (doFunc (rv_req v) st) as [[resp innerErr |] st1] eqn:Hdo.
    + intros H. right. exists (rv_req v), st, st1.
      destruct innerErr as [e |].
      * destruct (errors_Is e ErrTimeout) eqn:He; injection H as <- <-;
          simpl; rewrite ?He; split; (exact Hdo || reflexivity).
      * destruct resp as [r |].
        -- destruct (retryClass (StatusCode r)); injection H as <- <-; simpl;
             split; try exact Hdo; auto.
        -- injection H as <- <-. simpl. split; [exact Hdo | auto].
    + intros [= <- <-]. left. exact (retry_prepare_pair _ _ _ Hprep).
Qed.

(** A property of the pairs the wrapped executor returns holds of the
    captured pair throughout the retrier's loop. *)
Lemma retry_loop_pair_inv (T : option Response -> option error -> Prop)
    (rc : RetryClient) (doFunc : requestClosure) :
  (forall q st resp err st', doFunc q st = (Returned resp err, st') -> T resp err) ->
  forall n attempts s res s',
    T (rv_resp s.1) (rv_innerErr s.1) ->
    retry_loop env rc n attempts (retry_attempt doFunc) s = (res, s') ->
    T (rv_resp s'.1) (rv_innerErr s'.1).
Proof.
  intros HT n. induction n as [| n IH]; intros attempts s res s' Hinv Hloop.
  - simpl in Hloop. injection Hloop as <- <-. exact Hinv.
  - simpl in Hloop. destruct (env_ctxErr env (world s.2)).
    { injection Hloop as <- <-. exact Hinv. }
    destruct (retry_attempt doFunc s) as [r s1] eqn:Hatt.
    assert (Hinv1 : T (rv_resp s1.1) (rv_innerErr s1.1)).
    { destruct (retry_attempt_pair doFunc s s1 r Hatt)
        as [[-> ->] | (q & st & st' & Hdo & _)]; [exact Hinv |].
      exact (HT _ _ _ _ _ Hdo). }
    destruct r as [[e |] |].
    + destruct (rc_CanRetry rc e).
      * destruct n as [| n'].
        -- injection Hloop as <- <-. exact Hinv1.
        -- exact (IH _ (_, _) _ _ Hinv1 Hloop).
      * injection Hloop as <- <-. exact Hinv1.
    + injection Hloop as <- <-. exact Hinv1.
    + injection Hloop as <- <-. exact Hinv1.
Qed.

(** The captured error is a deadline error only when it is the very
    error the retrier ended with. *)
Lemma retry_loop_deadline (rc : RetryClient) (doFunc : requestClosure) :
  rc_CanRetry rc = (fun e => errors_Is e errRetryAllowed) ->
  forall n attempts s err s',
    errors_Is_opt (rv_innerErr s.1) context_DeadlineExceeded = false ->
    retry_loop env rc n attempts (retry_attempt doFunc) s = (DoErr err, s') ->
    errors_Is_opt (rv_innerErr s'.1) context_DeadlineExceeded = true ->
    err = rv_innerErr s'.1.
Proof.
  intros Hcan n. induction n as [| n IH]; intros attempts s err s' Hinv Hloop Hdl.
  - simpl in Hloop. injection Hloop as <- <-. congruence.
  - simpl in Hloop. destruct (env_ctxErr env (world s.2)).
    { injection Hloop as <- <-. congruence. }
    destruct (retry_attempt doFunc s) as [r s1] eqn:Hatt.
    assert (Hstep :
      match r with
      | DoErr e =>
          (errors_Is_opt (rv_innerErr s1.1) context_DeadlineExceeded = true ->
           e = rv_innerErr s1.1) /\
          (errors_Is_opt e errRetryAllowed = true ->
           errors_Is_opt (rv_innerErr s1.1) context_DeadlineExceeded = false)
      | DoPanic => True
      end).
    { destruct (retry_attempt_pair doFunc s s1 r Hatt)
        as [[_ Herr] | (q & st & st' & _ & Hres)].
      - rewrite Herr. destruct r; [| exact I]. split; [congruence | intros _; exact Hinv].
      - destruct (rv_innerErr s1.1) as [e |].
        + destruct (errors_Is e ErrTimeout) eqn:He; subst r; simpl.
          * assert (errors_Is e context_DeadlineExceeded = false) as Hno.
            { destruct (errors_Is e context_DeadlineExceeded) eqn:E; [| reflexivity].
              pose proof (errors_Is_unique e _ _ He E). discriminate. }
            split; [congruence | intros _; exact Hno].
          * split; [reflexivity |]. intros Hallowed.
            destruct (errors_Is e context_DeadlineExceeded) eqn:E; [| reflexivity].
            pose proof (errors_Is_unique e _ _ Hallowed E). discriminate.
        + destruct Hres as [-> | [-> | [-> | ->]]]; simpl; try exact I;
            split; (discriminate || reflexivity || (intros; reflexivity)). }
    destruct r as [[e |] |].
    + destruct Hstep as [Hsame Hnext]. rewrite Hcan in Hloop.
      destruct (errors_Is e errRetryAllowed) eqn:Hallowed.
      * destruct n as [| n'].
        -- injection Hloop as <- <-. specialize (Hnext Hallowed). congruence.
        -- exact (IH _ (_, _) _ _ (Hnext Hallowed) Hloop Hdl).
      * injection Hloop as <- <-. exact (Hsame Hdl).
    + injection Hloop as <- <-. destruct Hstep as [Hsame _]. exact (Hsame Hdl).
    + discriminate.
Qed.

(** A call that ends with a context deadline error returns a nil
    response with it.  A call that ends with [ErrTimeout] returns the
    pair of an attempt as the wrapped executor returned it: its response
    is nil whenever the wrapped executor returns no response with its
    [ErrTimeout] errors. *)
Lemma Retries_timeout_pair (r0 : Retries) (st0 : State)
    (doFunc : requestClosure) (req : loc) (st st' : State)
    (resp : option Response) (err : error) :
  Retries_buildMiddleware env (Retries_doInitOnce r0 st0).1 doFunc req st
  = (Returned resp (Some err), st') ->
  (errors_Is err context_DeadlineExceeded = true -> resp = None) /\
  ((forall q s resp' e s',
       doFunc q s = (Returned resp' (Some e), s') ->
       errors_Is e ErrTimeout = true -> resp' = None) ->
   errors_Is err ErrTimeout = true -> resp = None).
Proof.
  unfold Retries_buildMiddleware.
  destruct (cloneRequest req st) as [[reqClone | e |] st1].
  2: { intros [= <- _ _]. split; intros; reflexivity. }
  2: { discriminate. }
  rewrite Retries_doInitOnce_retrier. unfold retry_Do. simpl rc_MaxAttempts.
  set (rc := {| rc_MaxAttempts := (getMaxAttempts r0 st0).1;
                rc_BaseDelay := _; rc_MaxDelay := _; rc_CanRetry := _ |}).
  destruct (retry_loop env rc _ 0 (retry_attempt doFunc) (rv_initial req reqClone, st1))
    as [[e |] [v st2]] eqn:Hloop; [| discriminate].
  intros Hres. injection Hres as Hres _.
  unfold retry_result in Hres.
  destruct (errors_Is_opt e ErrTimeout || errors_Is_opt e context_DeadlineExceeded)%bool
    eqn:Hfirst.
  { injection Hres as <- _. split; intros; reflexivity. }
  apply orb_false_iff in Hfirst. destruct Hfirst as [Hto Hdl].
  destruct (errors_Is_opt e errRetryImpossible || errors_Is_opt e errRetryAllowed
            || errors_Is_opt e retry_ErrAttemptsExceeded)%bool.
  - injection Hres as Hresp Herr. split.
    + intros Hd.
      assert (e = rv_innerErr v) as He.
      { apply (retry_loop_deadline rc doFunc eq_refl _ _
                 (rv_initial req reqClone, st1) e (v, st2) eq_refl Hloop).
        simpl. rewrite Herr. exact Hd. }
      rewrite He, Herr in Hdl. simpl in Hdl. congruence.
    + intros Hdo Ht.
      pose proof (retry_loop_pair_inv
                    (fun rsp er => errors_Is_opt er ErrTimeout = true -> rsp = None)
                    rc doFunc) as Hinv.
      simpl in Hinv.
      specialize (Hinv (fun q s rsp er s' H =>
                          match er as er0
                            return doFunc q s = (Returned rsp er0, s') ->
                                   errors_Is_opt er0 ErrTimeout = true -> rsp = None
                          with
                          | Some x => fun H0 Hx => Hdo q s rsp x s' H0 Hx
                          | None => fun _ Hx => False_ind _ (Bool.diff_false_true Hx)
                          end H)).
      specialize (Hinv _ _ (rv_initial req reqClone, st1) _ (v, st2)
                    (fun _ => eq_refl) Hloop).
      simpl in Hinv. rewrite Herr, Hresp in Hinv. exact (Hinv Ht).
  - injection Hres as _ ->. simpl in Hto, Hdl. split; intros; congruence.
Qed.

(** The base executor returns no response with an error when the
    network does not. *)
Lemma doRequestFunc_error_without_response (cl : option http_Client)
    (tag : string) (q : loc) (s s' : State) (resp : option Response) (e : error) :
  (forall view w,
      http_err (env_httpDo env view w).1 <> None ->
      http_resp (env_httpDo env view w).1 = None) ->
  doRequestFunc env cl tag q s = (Returned resp (Some e), s') ->
  resp = None.
Proof.
  intros Hnet. unfold doRequestFunc, http_Client_Do.
  destruct cl as [cl |]; [| discriminate].
  destruct (reqs s !! q) as [rq |]; [| discriminate].
  pose proof (Hnet (request_view q rq s) (world s)) as Hres.
  destruct (env_httpDo env (request_view q rq s) (world s)) as [res0 w].
  simpl in Hres.
  assert (Hround : http_err (roundTrip cl rq res0) <> None ->
                   http_resp (roundTrip cl rq res0) = None).
  { unfold roundTrip. destruct (http_dialErr res0); [reflexivity | exact Hres]. }
  revert Hround. simpl. generalize (roundTrip cl rq res0). intros res Hround.
  destruct (http_err res) as [e0 |].
  - destruct (baseErr e0) as [e' errTag]. intros [= <- _ _].
    apply Hround. discriminate.
  - destruct (http_resp res); discriminate.
Qed.

(** C6: around the base executor, on a network that returns no response
    together with an error (as [http.Client.Do] does, unless a
    [CheckRedirect] of the caller fails), every call that ends with an
    error in which [ErrTimeout] or [context.DeadlineExceeded] is found
    returns a nil response with it: the caller never gets a response and
    such an error at once. *)
Theorem C6_timeout_result (cl : option http_Client) (r0 : Retries) (st0 : State)
    (tag : string) (req : loc) (st st' : State)
    (resp : option Response) (err : error) :
  (forall view w,
      http_err (env_httpDo env view w).1 <> None ->
      http_resp (env_httpDo env view w).1 = None) ->
  Retries_buildMiddleware env (Retries_doInitOnce r0 st0).1
    (doRequestFunc env cl tag) req st
  = (Returned resp (Some err), st') ->
  errors_Is err ErrTimeout = true \/ errors_Is err context_DeadlineExceeded = true ->
  resp = None.
Proof.
  intros Hnet Hcall Herr.
  destruct (Retries_timeout_pair r0 st0 (doRequestFunc env cl tag) req st st'
              resp err Hcall) as [Hdeadline Htimeout].
  destruct Herr as [Ht | Hd]; [| exact (Hdeadline Hd)].
  apply Htimeout; [| exact Ht].
  intros q s resp' e s' Hdo _.
  exact (doRequestFunc_error_without_response cl tag q s s' resp' e Hnet Hdo).
Qed.

End TimeoutResult.

(** Two attempts on a network that lets every request time out: the call
    ends with [ErrTimeout] and no response.  And with a context that has
    expired before the first attempt, it ends with the deadline error
    and no response. *)
Lemma C6_timeout_result_witness :
  let r0 := {| MaxAttempts := 2; BaseDelay := 0; MaxDelay := 0; retrier := None |} in
  let st0 := state_of [] [] tt in
  let awaiting :=
    UrlError "Get" "http://shop/items?id=7" (NetError "awaiting headers" true) in
  let out := Retries_buildMiddleware (timing_out_env None)
               (Retries_doInitOnce r0 st0).1
               (doRequestFunc (timing_out_env None) (Some plain_client) "GET::/items")
               0 (state_of [get_request] [] tt) in
  let late := Retries_buildMiddleware
                (timing_out_env (Some (Sentinel context_DeadlineExceeded)))
                (Retries_doInitOnce r0 st0).1
                (doRequestFunc
                   (timing_out_env (Some (Sentinel context_DeadlineExceeded)))
                   (Some plain_client) "GET::/items")
                0 (state_of [get_request] [] tt) in
  out.1 = Returned None (Some (Errorf "%w - %s" (Sentinel ErrTimeout) awaiting)) /\
  length (wire out.2) = 2 /\
  late.1 = Returned None (Some (Sentinel context_DeadlineExceeded)) /\
  wire late.2 = [].
Proof.
  intros r0 st0 awaiting out late.
  assert (Hnet : forall (ctx : option error) (view : ReqView) (w : unit),
             http_err (env_httpDo (timing_out_env ctx) view w).1 <> None ->
             http_resp (env_httpDo (timing_out_env ctx) view w).1 = None).
  { intros ctx view w _. reflexivity. }
  assert (H1 : exists resp,
             out = (Returned resp
                      (Some (Errorf "%w - %s" (Sentinel ErrTimeout) awaiting)),
                    out.2)).
  { eexists. vm_compute. reflexivity. }
  assert (H2 : exists resp,
             late = (Returned resp (Some (Sentinel context_DeadlineExceeded)),
                     late.2)).
  { eexists. vm_compute. reflexivity. }
  destruct H1 as (resp1 & H1). destruct H2 as (resp2 & H2).
  pose proof (C6_timeout_result (timing_out_env None) (Some plain_client) r0 st0
                "GET::/items" 0 _ _ resp1 _ (Hnet None) H1 (or_introl eq_refl))
    as Hr1.
  pose proof (C6_timeout_result
                (timing_out_env (Some (Sentinel context_DeadlineExceeded)))
                (Some plain_client) r0 st0 "GET::/items" 0 _ _ resp2 _
                (Hnet (Some (Sentinel context_DeadlineExceeded))) H2
                (or_intror eq_refl)) as Hr2.
  split; [rewrite H1, Hr1; reflexivity |].
  split; [vm_compute; reflexivity |].
  split; [rewrite H2, Hr2; reflexivity |].
  vm_compute. reflexivity.
Defined.

(** ** C10: the body of the request across the attempts *)

Section Bodies.

Context {W : Type} (env : Env W) (cl : http_Client).

Abbreviation State := (State W).
Abbreviation requestClosure := (@requestClosure W).

(** [cloneRequest] on a request whose body reader is intact: the reader
    is read to its end, the request gets a new reader over the bytes,
    and the clone, a new request, gets another. *)
Lemma cloneRequest_spec (st : State) (req body : loc) (rq : Request)
    (data : list byte) :
  reqs st !! req = Some rq ->
  Body rq = Some body ->
  readers st !! body = Some (intact data) ->
  exists st',
    cloneRequest req st = (Cloned (length (reqs st)), st') /\
    readers st' = <[body := drained]> (readers st) ++ [intact data; intact data] /\
    reqs st'
    = <[length (reqs st) := with_Body rq (S (length (readers st)))]>
        (<[req := with_Body rq (length (readers st))]> (reqs st ++ [rq])) /\
    wire st' = wire st /\ world st' = world st /\ events st' = events st /\
    hystrix_log st' = hystrix_log st.
Proof.
  intros Hreq Hbody Hrd.
  pose proof (lookup_lt_Some _ _ _ Hreq) as Hlt.
  unfold cloneRequest. rewrite Hreq. unfold new_Request.
  rewrite Hbody. unfold ReadFrom. simpl readers. rewrite Hrd.
  unfold advance. simpl readers. rewrite Hrd. simpl pending. simpl fault.
  rewrite drop_all. unfold new_Reader. simpl.
  unfold set_Body. simpl.
  rewrite (lookup_app_l_Some _ _ _ _ Hreq). simpl.
  rewrite list_lookup_insert_ne by lia.
  rewrite list_lookup_middle by reflexivity. simpl.
  eexists. split; [reflexivity |]. simpl.
  rewrite length_insert, length_app, length_insert. simpl.
  rewrite <- app_assoc. simpl.
  replace (length (readers st) + 1) with (S (length (readers st))) by lia.
  repeat split; reflexivity.
Qed.

(** One call of the base executor with a request that has a body: the
    network sees the request with what its reader holds, some of which it
    reads; nothing else on the heaps changes. *)
Lemma doRequestFunc_effect (tag : string) (q b : loc) (st st' : State)
    (rq : Request) (rdb : Reader) (out : Outcome) :
  reqs st !! q = Some rq ->
  Body rq = Some b ->
  readers st !! b = Some rdb ->
  doRequestFunc env (Some cl) tag q st = (out, st') ->
  reqs st' = reqs st /\
  wire st' = wire st ++ [{| view_req := q; view_Method := Method rq;
                            view_URL := URL rq;
                            view_Body := Some (b, pending rdb) |}] /\
  exists n, readers st'
            = <[b := {| pending := drop n (pending rdb); fault := fault rdb |}]>
                (readers st).
Proof.
  intros Hreq Hbody Hrd. unfold doRequestFunc, http_Client_Do, request_view.
  rewrite Hreq, Hbody, Hrd. simpl.
  destruct (env_httpDo env _ (world st)) as [res0 w].
  generalize (roundTrip cl rq res0). intros res. unfold advance. simpl.
  rewrite Hrd.
  destruct (http_err res) as [e |].
  - destruct (baseErr e) as [e' errTag]. intros [= <- <-]. simpl.
    repeat split. eexists. reflexivity.
  - destruct (http_resp res) as [r |]; intros [= <- <-]; simpl;
      repeat split; eexists; reflexivity.
Qed.

(** What the function handed to the retrier does once the request is
    prepared: one call of the wrapped executor, and reports. *)
Lemma retry_attempt_effect (doFunc : requestClosure) (s s' : RetryVars * State)
    (v : RetryVars) (st : State) (res : DoResult) :
  retry_attempt doFunc s = (res, s') ->
  retry_prepare s = (None, (v, st)) ->
  exists out st1,
    doFunc (rv_req v) st = (out, st1) /\
    reqs s'.2 = reqs st1 /\ readers s'.2 = readers st1 /\ wire s'.2 = wire st1 /\
    hystrix_log s'.2 = hystrix_log st1 /\
    rv_req s'.1 = rv_req v /\ rv_reqClone s'.1 = rv_reqClone v /\
    rv_isFirstTry s'.1 = rv_isFirstTry v.
Proof.
  intros Hatt Hprep. unfold retry_attempt in Hatt. rewrite Hprep in Hatt.
  destruct (doFunc (rv_req v) st) as [out st1] eqn:Hdo.
  assert (Hfirst : rv_isFirstTry v = false).
  { destruct s as [v0 st0]. unfold retry_prepare in Hprep.
    destruct (rv_isFirstTry v0).
    - injection Hprep as <- _. reflexivity.
    - destruct (rv_reqClone v0) as [c |]; [| discriminate].
      destruct (cloneRequest c st0) as [[c' | e |] st2]; try discriminate.
      injection Hprep as <- _. reflexivity. }
  exists out, st1. split; [reflexivity |].
  destruct out as [resp innerErr |].
  - destruct innerErr as [e |].
    + destruct (errors_Is e ErrTimeout); injection Hatt as <- <-; simpl;
        rewrite ?Hfirst; repeat split.
    + destruct resp as [r |].
      * destruct (retryClass (StatusCode r)); injection Hatt as <- <-; simpl;
          rewrite ?Hfirst; repeat split.
      * injection Hatt as <- <-. simpl. rewrite ?Hfirst. repeat split.
  - injection Hatt as <- <-. simpl. repeat split.
Qed.

(** Under the invariant the request is prepared without an error. *)
Lemma retry_prepare_inv data rq body req0 b0 wire0 (s : RetryVars * State)
    views locs :
  retry_inv data rq body req0 b0 wire0 s views locs ->
  exists v st b,
    retry_prepare s = (None, (v, st)) /\
    reqs st !! rv_req v = Some (with_Body rq b) /\
    readers st !! b = Some (intact data) /\
    b <> body /\ (b ∉ locs) /\ b < length (readers st) /\
    (forall l, l ∈ locs -> l < length (readers st)) /\
    (if rv_isFirstTry s.1 then b = b0 else True) /\
    wire st = wire s.2 /\
    readers st !! body = Some drained /\
    reqs st !! req0 = Some (with_Body rq b0) /\
    rv_isFirstTry v = false /\
    exists c rdc,
      rv_reqClone v = Some c /\ c <> req0 /\
      reqs st !! c = Some (with_Body rq rdc) /\
      readers st !! rdc = Some (intact data) /\
      rdc <> body /\ (rdc ∉ locs) /\ rdc <> b /\ c <> rv_req v.
Proof.
  destruct s as [v st]. unfold retry_inv. simpl.
  intros (Hbody & Hreq0 & Hwire & Hviews & Hnd & Hlocs &
          (c & rdc & Hc & Hcne & Hcreq & Hrdc & Hrdcb & Hrdcl & Hrdcb0) & Hmode).
  assert (Hlt : forall l, l ∈ locs -> l < length (readers st) /\ l <> body).
  { apply Forall_forall. exact Hlocs. }
  unfold retry_prepare. destruct (rv_isFirstTry v) eqn:Hfirst.
  - destruct Hmode as (Hreq & -> & Hb0 & Hb0b).
    eexists _, st, b0. split; [reflexivity |]. simpl. rewrite Hreq.
    split_and!; try done.
    + apply not_elem_of_nil.
    + exact (lookup_lt_Some _ _ _ Hb0).
    + intros l Hl. apply (Hlt l Hl).
    + exists c, rdc. split_and!; try done. apply Hrdcb0. reflexivity.
  - rewrite Hc.
    pose proof (lookup_lt_Some _ _ _ Hcreq) as Hclt.
    pose proof (lookup_lt_Some _ _ _ Hrdc) as Hrdlt.
    pose proof (lookup_lt_Some _ _ _ Hbody) as Hbodylt.
    pose proof (lookup_lt_Some _ _ _ Hreq0) as Hreq0lt.
    destruct (cloneRequest_spec st c rdc (with_Body rq rdc) data Hcreq eq_refl Hrdc)
      as (st' & Hclone & Hrds & Hreqs & Hw & _).
    rewrite Hclone.
    eexists _, st', (length (readers st)). split; [reflexivity |]. simpl.
    rewrite Hrds, Hreqs, Hw.
    split_and!.
    + rewrite list_lookup_insert_ne by lia.
      rewrite list_lookup_insert_eq by (rewrite length_app; simpl; lia).
      reflexivity.
    + rewrite lookup_app_r by (rewrite length_insert; lia).
      rewrite length_insert, Nat.sub_diag. reflexivity.
    + lia.
    + intros Hin. apply Hlt in Hin. lia.
    + rewrite length_app, length_insert. simpl. lia.
    + intros l Hl. apply Hlt in Hl. rewrite length_app, length_insert. simpl. lia.
    + exact I.
    + reflexivity.
    + rewrite lookup_app_l by (rewrite length_insert; lia).
      rewrite list_lookup_insert_ne by congruence. exact Hbody.
    + rewrite list_lookup_insert_ne by lia.
      rewrite list_lookup_insert_ne by congruence.
      apply lookup_app_l_Some. exact Hreq0.
    + reflexivity.
    + exists (length (reqs st)), (S (length (readers st))). split_and!.
      * reflexivity.
      * lia.
      * rewrite list_lookup_insert_eq
          by (rewrite length_insert, length_app; simpl; lia).
        reflexivity.
      * rewrite lookup_app_r by (rewrite length_insert; lia).
        rewrite length_insert.
        replace (S (length (readers st)) - length (readers st)) with 1 by lia.
        reflexivity.
      * lia.
      * intros Hin. apply Hlt in Hin. lia.
      * lia.
      * lia.
Qed.

(** The invariant is kept by one call of the function handed to the
    retrier, which shows the network one more request. *)
Lemma retry_attempt_inv (tag : string) data rq body req0 b0 wire0
    (s s' : RetryVars * State) (res : DoResult) views locs :
  retry_inv data rq body req0 b0 wire0 s views locs ->
  retry_attempt (doRequestFunc env (Some cl) tag) s = (res, s') ->
  exists views' locs',
    retry_inv data rq body req0 b0 wire0 s' views' locs' /\
    rv_isFirstTry s'.1 = false.
Proof.
  intros Hinv Hatt.
  destruct (retry_prepare_inv _ _ _ _ _ _ _ _ _ Hinv)
    as (v & st & b & Hprep & Hreq & Hb & Hbb & Hbl & Hblt & Hlt & Hfirstb & Hw &
        Hbody & Hreq0 & Hfalse & c & rdc & Hc & Hcne & Hcreq & Hrdc & Hrdcb &
        Hrdcl & Hrdcne & Hcv).
  destruct (retry_attempt_effect _ _ _ _ _ _ Hatt Hprep)
    as (out & st1 & Hdo & Hr & Hrd & Hwi & _ & Hrq & Hcl & Hft).
  destruct (doRequestFunc_effect tag _ b _ _ _ _ _ Hreq eq_refl Hb Hdo)
    as (Hr1 & Hw1 & n & Hrd1).
  destruct Hinv as (_ & _ & Hwire & Hviews & Hnd & Hlocs & _ & Hmode).
  exists (views ++ [{| view_req := rv_req v; view_Method := Method rq;
                       view_URL := URL rq; view_Body := Some (b, data) |}]),
         (locs ++ [b]).
  split; [| rewrite Hft; exact Hfalse].
  unfold retry_inv. rewrite Hr, Hrd, Hwi, Hr1, Hw1, Hrd1, Hcl, Hft, Hfalse, Hw.
  split_and!.
  - rewrite list_lookup_insert_ne by congruence. exact Hbody.
  - exact Hreq0.
  - rewrite Hwire, app_assoc. reflexivity.
  - rewrite !fmap_app, Hviews. reflexivity.
  - apply NoDup_app. split_and!.
    + exact Hnd.
    + intros x Hx Hx'. apply list_elem_of_singleton in Hx'. subst x. contradiction.
    + apply NoDup_singleton.
  - apply Forall_app. split.
    + apply Forall_forall. intros l Hl. rewrite length_insert. split.
      * apply Hlt. exact Hl.
      * rewrite Forall_forall in Hlocs. apply (Hlocs l Hl).
    + apply Forall_singleton. rewrite length_insert. split; assumption.
  - exists c, rdc. split_and!; try done.
    + rewrite list_lookup_insert_ne by congruence. exact Hrdc.
    + intros Hin. apply elem_of_app in Hin. destruct Hin as [Hin | Hin].
      * contradiction.
      * apply list_elem_of_singleton in Hin. contradiction.
  - destruct (rv_isFirstTry s.1).
    + destruct Hmode as (_ & -> & _). subst b. reflexivity.
    + destruct locs as [| l0 locs0]; [discriminate | exact Hmode].
Qed.

Lemma retry_inv_set_world data rq body req0 b0 wire0 (v : RetryVars)
    (st : State) (f : W -> W) views locs :
  retry_inv data rq body req0 b0 wire0 (v, st) views locs ->
  retry_inv data rq body req0 b0 wire0 (v, set_world f st) views locs.
Proof. unfold retry_inv. simpl. intros H. exact H. Qed.

(** The invariant holds when the retrier returns. *)
Lemma retry_loop_inv (tag : string) (rc : RetryClient) data rq body req0 b0 wire0 :
  forall n attempts (s s' : RetryVars * State) (res : DoResult) views locs,
    retry_inv data rq body req0 b0 wire0 s views locs ->
    retry_loop env rc n attempts (retry_attempt (doRequestFunc env (Some cl) tag)) s
    = (res, s') ->
    exists views' locs', retry_inv data rq body req0 b0 wire0 s' views' locs'.
Proof.
  induction n as [| n IH]; intros attempts s s' res views locs Hinv Hloop.
  - simpl in Hloop. injection Hloop as <- <-. exists views, locs. exact Hinv.
  - simpl in Hloop. destruct (env_ctxErr env (world s.2)).
    { injection Hloop as <- <-. exists views, locs. exact Hinv. }
    destruct (retry_attempt (doRequestFunc env (Some cl) tag) s) as [r s1] eqn:Hatt.
    destruct (retry_attempt_inv tag _ _ _ _ _ _ _ _ _ _ _ Hinv Hatt)
      as (views1 & locs1 & Hinv1 & _).
    destruct r as [[e |] |].
    + destruct (rc_CanRetry rc e).
      * destruct n as [| n'].
        -- injection Hloop as <- <-. exists views1, locs1. exact Hinv1.
        -- destruct s1 as [v1 st1].
           exact (IH _ (_, _) _ _ _ _
                    (retry_inv_set_world _ _ _ _ _ _ _ _ _ _ _ Hinv1) Hloop).
      * injection Hloop as <- <-. exists views1, locs1. exact Hinv1.
    + injection Hloop as <- <-. exists views1, locs1. exact Hinv1.
    + injection Hloop as <- <-. exists views1, locs1. exact Hinv1.
Qed.

(** C10: for a request that comes with a body, the call first reads the
    caller's reader to its end and gives the caller's request a new
    reader over the bytes read, before any request is shown to the
    network.  Whatever the outcome and the number of attempts, when the
    call returns the caller's reader is empty, the caller's request still
    carries the substitute, and every request the network was shown
    carried all the bytes in a reader of its own: the readers are
    pairwise distinct, none is the caller's, and the first is the
    substitute. *)
Theorem C10_body_is_buffered (r0 : Retries) (st0 : State) (tag : string)
    (req body : loc) (st : State) (rq : Request) (data : list byte) :
  reqs st !! req = Some rq ->
  Body rq = Some body ->
  readers st !! body = Some (intact data) ->
  let b0 := length (readers st) in
  let st' := (Retries_buildMiddleware env (Retries_doInitOnce r0 st0).1
                (doRequestFunc env (Some cl) tag) req st).2 in
  (exists reqClone st1,
      cloneRequest req st = (Cloned reqClone, st1) /\
      wire st1 = wire st /\
      readers st1 !! body = Some drained /\
      reqs st1 !! req = Some (with_Body rq b0) /\
      readers st1 !! b0 = Some (intact data)) /\
  readers st' !! body = Some drained /\
  reqs st' !! req = Some (with_Body rq b0) /\
  b0 <> body /\
  exists views locs,
    wire st' = wire st ++ views /\
    (view_Body <$> views) = ((fun l => Some (l, data)) <$> locs) /\
    NoDup locs /\ (body ∉ locs) /\
    (locs = [] \/ head locs = Some b0).
Proof.
  intros Hreq Hbody Hrd b0 st'.
  pose proof (lookup_lt_Some _ _ _ Hreq) as Hreqlt.
  pose proof (lookup_lt_Some _ _ _ Hrd) as Hbodylt.
  destruct (cloneRequest_spec st req body rq data Hreq Hbody Hrd)
    as (st1 & Hclone & Hrds & Hreqs & Hw & _).
  assert (Hbody1 : readers st1 !! body = Some drained).
  { rewrite Hrds. rewrite lookup_app_l by (rewrite length_insert; lia).
    apply list_lookup_insert_eq. lia. }
  assert (Hreq1 : reqs st1 !! req = Some (with_Body rq b0)).
  { rewrite Hreqs. rewrite list_lookup_insert_ne by lia.
    apply list_lookup_insert_eq. rewrite length_app. simpl. lia. }
  assert (Hb01 : readers st1 !! b0 = Some (intact data)).
  { rewrite Hrds. rewrite lookup_app_r by (rewrite length_insert; lia).
    rewrite length_insert. subst b0. rewrite Nat.sub_diag. reflexivity. }
  assert (Hinv : retry_inv data rq body req b0 (wire st)
                   (rv_initial req (length (reqs st)), st1) [] []).
  { unfold retry_inv. simpl. split_and!; try done.
    - rewrite Hw, app_nil_r. reflexivity.
    - apply NoDup_nil_2.
    - exists (length (reqs st)), (S (length (readers st))). split_and!.
      + reflexivity.
      + lia.
      + rewrite Hreqs. apply list_lookup_insert_eq.
        rewrite length_insert, length_app. simpl. lia.
      + rewrite Hrds. rewrite lookup_app_r by (rewrite length_insert; lia).
        rewrite length_insert.
        replace (S (length (readers st)) - length (readers st)) with 1 by lia.
        reflexivity.
      + lia.
      + apply not_elem_of_nil.
      + intros _. subst b0. lia.
    - subst b0. lia. }
  split.
  { exists (length (reqs st)), st1. split_and!; assumption. }
  assert (Hfinal : exists v views locs,
             retry_inv data rq body req b0 (wire st) (v, st') views locs).
  { subst st'. unfold Retries_buildMiddleware. rewrite Hclone.
    rewrite Retries_doInitOnce_retrier. unfold retry_Do.
    destruct (retry_loop env _ _ 0 (retry_attempt (doRequestFunc env (Some cl) tag))
                (rv_initial req (length (reqs st)), st1))
      as [res [v st2]] eqn:Hloop.
    destruct (retry_loop_inv tag _ _ _ _ _ _ _ _ _ _ _ _ _ _ Hinv Hloop)
      as (views & locs & Hinv2).
    exists v, views, locs. destruct res; exact Hinv2. }
  destruct Hfinal as (v & views & locs & Hb & Hr & Hwire & Hviews & Hnd & Hlocs &
                      _ & Hmode).
  simpl in Hb, Hr, Hwire, Hlocs, Hmode.
  split_and!; try assumption.
  - subst b0. lia.
  - exists views, locs. split_and!; try assumption.
    + intros Hin. rewrite Forall_forall in Hlocs. apply (Hlocs body Hin).
      reflexivity.
    + destruct (rv_isFirstTry v).
      * left. apply Hmode.
      * right. exact Hmode.
Qed.

End Bodies.

(** A POST with a two-byte body, answered by a 503 (after the network
    read the whole body) and then a 200. *)
Lemma C10_body_is_buffered_witness :
  let r0 := {| MaxAttempts := 3; BaseDelay := 0; MaxDelay := 0; retrier := None |} in
  let st0 := state_of [] [] (script []) in
  let st := state_of [post_request] [example_body]
              (script [reply_status 503 2; reply_status 200 2]) in
  let st' := (Retries_buildMiddleware script_env (Retries_doInitOnce r0 st0).1
                (doRequestFunc script_env (Some plain_client) "POST::/items") 0 st).2 in
  readers st' !! 0 = Some drained /\
  reqs st' !! 0 = Some (with_Body post_request 1) /\
  (view_Body <$> wire st')
  = [Some (1, [x68; x69]%byte); Some (3, [x68; x69]%byte)].
Proof.
  intros r0 st0 st st'.
  destruct (C10_body_is_buffered script_env plain_client r0 st0 "POST::/items" 0 0 st
              post_request [x68; x69]%byte eq_refl eq_refl eq_refl)
    as (_ & Hbody & Hreq & _ & _).
  split; [exact Hbody |]. split; [exact Hreq |].
  vm_compute. reflexivity.
Defined.

(** ** C2: the layers of [Client.Do] *)

(** C2 (as stated) fails for the breaker: [Client] holds its
    [CircuitBreaker] by value and [Do] always builds the middleware on
    its address, so a client that configures no layer at all still runs
    every call through the hystrix command.  With the circuit open such a
    client answers [ErrCircuitIsOpen] without a network attempt, where
    the bare executor would have returned the response; and a 503 is
    reported to the breaker's telemetry and to the command. *)
Lemma C2_breaker_is_always_installed :
  let c := {| Name := "shop"; ClientClient := None; clientInitOnce := false;
              ClientTimeout := 0;
              ConnectTimeout := 0; ClientInstrumentation := None;
              ClientCircuitBreaker :=
                {| ErrorPercentThreshold := 0; MaxConcurrentRequests := 0;
                   cb_name := ""; trackError := None |};
              ClientRetries := None; ClientSingleflight := None |} in
  let opened := {| replies := [reply_status 200 0]; script_ctx := None;
                   script_gate := GateOpen |} in
  let out := Client_Do script_env c 0 (state_of [get_request] [] opened) in
  let bare := doRequestFunc script_env (Some plain_client) "GET::" 0 (state_of [get_request] [] opened) in
  let out503 := Client_Do script_env c 0
                  (state_of [get_request] [] (script [reply_status 503 0])) in
  out.1 = Returned None (Some (Sentinel ErrCircuitIsOpen)) /\
  wire out.2.2 = [] /\
  bare.1 = Returned (Some {| StatusCode := 200; Payload := [] |}) None /\
  hystrix_config out.2.2
  = [("shop", {| cc_Timeout := 3600000; cc_MaxConcurrentRequests := 10;
                 cc_ErrorPercentThreshold := 80 |})] /\
  hystrix_log out503.2.2 = [("shop", Some (Sentinel errTrackableStatusCodeError))] /\
  In (CBTrackedStatusCode 0 503) (events out503.2.2).
Proof. repeat split; vm_compute; auto 10. Qed.

Section Composition.

Context {W : Type} (env : Env W).

Abbreviation State := (State W).
Abbreviation requestClosure := (@requestClosure W).

(** Only the breaker talks to the hystrix command. *)
Lemma cloneRequest_hystrix_log (req : loc) (st : State) :
  hystrix_log (cloneRequest req st).2 = hystrix_log st.
Proof.
  unfold cloneRequest, new_Request, ReadFrom, advance, new_Reader, set_Body.
  repeat (case_match; simplify_eq/=; try reflexivity).
Qed.

Lemma doRequestFunc_hystrix_log (cl : option http_Client) (tag : string)
    (q : loc) (st : State) :
  hystrix_log (doRequestFunc env cl tag q st).2 = hystrix_log st.
Proof.
  unfold doRequestFunc, http_Client_Do, advance.
  repeat (case_match; simplify_eq/=; try reflexivity).
Qed.

Lemma retry_attempt_hystrix_log (doFunc : requestClosure) (s : RetryVars * State) :
  (forall q st, hystrix_log (doFunc q st).2 = hystrix_log st) ->
  hystrix_log (retry_attempt doFunc s).2.2 = hystrix_log s.2.
Proof.
  intros Hf. destruct s as [v st]. unfold retry_attempt, retry_prepare.
  destruct (rv_isFirstTry v).
  - simpl. pose proof (Hf (rv_req v) st) as H.
    destruct (doFunc (rv_req v) st) as [[resp innerErr |] st1]; simpl in *;
      try assumption; repeat (case_match; simplify_eq/=; try assumption).
  - destruct (rv_reqClone v) as [c |]; [| reflexivity].
    pose proof (cloneRequest_hystrix_log c st) as Hc.
    destruct (cloneRequest c st) as [[c' | e |] st1]; simpl in *;
      try assumption.
    pose proof (Hf c st1) as H.
    destruct (doFunc c st1) as [[resp innerErr |] st2]; simpl in *;
      try congruence; repeat (case_match; simplify_eq/=; try congruence).
Qed.

Lemma retry_loop_hystrix_log (rc : RetryClient) (doFunc : requestClosure) :
  (forall q st, hystrix_log (doFunc q st).2 = hystrix_log st) ->
  forall n attempts (s : RetryVars * State),
    hystrix_log (retry_loop env rc n attempts (retry_attempt doFunc) s).2.2
    = hystrix_log s.2.
Proof.
  intros Hf. induction n as [| n IH]; intros attempts s; [reflexivity |].
  simpl. destruct (env_ctxErr env (world s.2)); [reflexivity |].
  pose proof (retry_attempt_hystrix_log doFunc s Hf) as Hatt.
  destruct (retry_attempt doFunc s) as [[[e |] |] s1]; simpl in *;
    try assumption.
  destruct (rc_CanRetry rc e); [| assumption].
  destruct n as [| n']; [assumption |].
  rewrite IH. simpl. exact Hatt.
Qed.

Lemma Retries_addMiddleware_hystrix_log (r : option Retries)
    (doFunc : requestClosure) (req : loc) (st : State) :
  (forall q st, hystrix_log (doFunc q st).2 = hystrix_log st) ->
  hystrix_log (Retries_addMiddleware env r doFunc req st).2 = hystrix_log st.
Proof.
  intros Hf. destruct r as [r |]; [| apply Hf].
  unfold Retries_addMiddleware, Retries_buildMiddleware.
  pose proof (cloneRequest_hystrix_log req st) as Hc.
  destruct (cloneRequest req st) as [[c | e |] st1]; simpl in *; try assumption.
  destruct (retrier r) as [rc |]; [| assumption].
  unfold retry_Do.
  pose proof (retry_loop_hystrix_log rc doFunc Hf (Z.to_nat (rc_MaxAttempts rc)) 0
                (rv_initial req c, st1)) as Hl.
  destruct (retry_loop env rc _ 0 (retry_attempt doFunc) (rv_initial req c, st1))
    as [[err |] [v st2]]; simpl in *; congruence.
Qed.

(** A caller that finds a call in flight for its key receives that
    call's result; neither the command nor the network is involved. *)
Lemma Singleflight_follower (s0 : Singleflight) (doFunc : requestClosure)
    (req : loc) (st : State) (r : Request) (resp : option Response)
    (err : option error) :
  reqs st !! req = Some r ->
  KeyGenerator s0 = None ->
  Method r = "GET" ->
  env_peer env (DefaultSFKeyGenerator r) (world st) = Some (resp, err) ->
  let out := Singleflight_buildMiddleware env (Singleflight_doInitOnce s0)
               doFunc req st in
  out.1 = Returned resp err /\
  wire out.2 = wire st /\ hystrix_log out.2 = hystrix_log st.
Proof.
  intros Hreq Hgen Hget Hpeer. unfold Singleflight_buildMiddleware.
  rewrite Hreq. simpl. rewrite Hgen, Hget. simpl.
  unfold group_Do. simpl. rewrite Hpeer.
  destruct (trackKey s0); destruct err; repeat split.
Qed.

(** C2 (as amended): [Retries] and [Singleflight] are optional, a nil
    layer being a pass-through, and so is a nil breaker for
    [addMiddleware]; but [Client.Do] always installs the breaker of the
    client.  The order is fixed: singleflight around the breaker around
    the retries around the base executor.  So the command is told one
    outcome per call it runs, that of the whole retry sequence, however
    many requests the network was shown; and a caller that joins a call
    in flight gets its result without the command or the network being
    involved. *)
Theorem C2_layer_composition (c : Client) (tag : string) :
  let cb := ClientCircuitBreaker c in
  let base := doRequestFunc env (ClientClient c) tag in
  let retried := Retries_addMiddleware env (ClientRetries c) base in
  (forall (f : requestClosure) (req : loc) (st : State),
      Retries_addMiddleware env None f req st = f req st /\
      Singleflight_addMiddleware env None f req st = f req st /\
      CircuitBreaker_addMiddleware env None f req st = f req st) /\
  (forall (req : loc) (st : State),
      Client_stack env c tag req st
      = Singleflight_addMiddleware env (ClientSingleflight c)
          (CircuitBreaker_buildMiddleware env cb retried) req st) /\
  (forall (req : loc) (st : State),
      ClientRetries c = None -> ClientSingleflight c = None ->
      Client_stack env c tag req st
      = CircuitBreaker_buildMiddleware env cb base req st) /\
  (forall (req : loc) (st st1 : State) (resp : option Response)
          (err : option error) (hook : Z -> Z),
      env_gate env (cb_name cb) (world st) = GateRun ->
      trackError cb = Some hook ->
      retried req st = (Returned resp err, st1) ->
      resp <> None \/ err <> None ->
      let out := CircuitBreaker_buildMiddleware env cb retried req st in
      hystrix_log out.2 = hystrix_log st ++ [(cb_name cb, breaker_report resp err)] /\
      wire out.2 = wire st1) /\
  (forall (s0 : Singleflight) (req : loc) (st : State) (r : Request)
          (resp : option Response) (err : option error),
      ClientSingleflight c = Some (Singleflight_doInitOnce s0) ->
      reqs st !! req = Some r ->
      KeyGenerator s0 = None ->
      Method r = "GET" ->
      env_peer env (DefaultSFKeyGenerator r) (world st) = Some (resp, err) ->
      let out := Client_stack env c tag req st in
      out.1 = Returned resp err /\
      wire out.2 = wire st /\ hystrix_log out.2 = hystrix_log st).
Proof.
  intros cb base retried. split_and!.
  - intros f req st. repeat split.
  - reflexivity.
  - intros req st Hr Hs. unfold Client_stack. rewrite Hr, Hs. reflexivity.
  - intros req st st1 resp err hook Hgate Hhook Hinner Hsome out.
    assert (Hlog : hystrix_log st1 = hystrix_log st).
    { pose proof (Retries_addMiddleware_hystrix_log (ClientRetries c)
                    base req st
                    (doRequestFunc_hystrix_log (ClientClient c) tag)) as H.
      fold retried in H. rewrite Hinner in H. exact H. }
    subst out. unfold CircuitBreaker_buildMiddleware, hystrix_Do. simpl.
    rewrite Hgate. unfold cb_run. simpl. rewrite Hinner.
    destruct err as [e |].
    + simpl. rewrite <- Hlog.
      destruct e as [s | | |]; try (split; reflexivity).
      destruct s; split; reflexivity.
    + destruct resp as [r |]; [| destruct Hsome; congruence].
      unfold outErrorBasedOnResponseCode, breaker_report. rewrite Hhook.
      destruct (code_in (StatusCode r) trackedCodes); simpl; rewrite <- Hlog;
        split; reflexivity.
  - intros s0 req st r resp err Hs Hreq Hgen Hget Hpeer.
    unfold Client_stack. rewrite Hs.
    exact (Singleflight_follower s0 _ req st r resp err Hreq Hgen Hget Hpeer).
Qed.

End Composition.

(** A client with three attempts, answered 503, 503 and 200: the
    network is shown three requests and the command is told of one
    success. *)
Lemma C2_layer_composition_witness :
  let raw := {| Name := "shop"; ClientClient := None; clientInitOnce := false;
                ClientTimeout := 0;
                ConnectTimeout := 0; ClientInstrumentation := None;
                ClientCircuitBreaker :=
                  {| ErrorPercentThreshold := 0; MaxConcurrentRequests := 0;
                     cb_name := ""; trackError := None |};
                ClientRetries := Some {| MaxAttempts := 3; BaseDelay := 0;
                                         MaxDelay := 0; retrier := None |};
                ClientSingleflight := None |} in
  let init := Client_doInitOnce script_env raw
                (state_of [get_request] []
                   (script [reply_status 503 0; reply_status 503 0;
                            reply_status 200 0])) in
  let out := Client_stack script_env init.1 "GET::" 0 init.2 in
  hystrix_log out.2 = [("shop", None)] /\ length (wire out.2) = 3.
Proof.
  intros raw init out.
  destruct (C2_layer_composition script_env init.1 "GET::") as (_ & _ & _ & H & _).
  destruct (H 0 init.2
              (Retries_addMiddleware script_env (ClientRetries init.1)
                 (doRequestFunc script_env (ClientClient init.1) "GET::") 0 init.2).2
              (Some {| StatusCode := 200; Payload := [] |}) None (fun n => n))
    as [Hlog Hwire].
  - reflexivity.
  - reflexivity.
  - vm_compute. reflexivity.
  - left. discriminate.
  - split.
    + refine (eq_trans _ (eq_trans Hlog _)); vm_compute; reflexivity.
    + refine (eq_trans _ (eq_trans (f_equal length Hwire) _)); vm_compute;
        reflexivity.
Defined.

(** * Further properties of the package *)

(** ** The outcome that ends the retries *)

Section FinalOutcome.

Context {W : Type} (env : Env W).

Lemma retry_attempt_final (doFunc : @requestClosure W) (s : RetryVars * State W)
    (v : RetryVars) (st st' : State W) (resp : option Response)
    (err : option error) :
  retry_prepare s = (None, (v, st)) ->
  doFunc (rv_req v) st = (Returned resp err, st') ->
  retriable_pair resp err = false ->
  resp <> None \/ err <> None ->
  exists res,
    retry_attempt doFunc s
    = (DoErr res, (rv_returned v resp err, final_state (rv_req v) resp err st')) /\
    match err with
    | Some e => res = Some e
    | None => res = None \/ res = Some (Sentinel errRetryImpossible)
    end.
Proof.
  intros Hprep Hdo Hpair Hsome.
  rewrite (retry_attempt_returned doFunc s v st st' resp err Hprep Hdo).
  unfold retriable_pair in Hpair. unfold final_state.
  destruct err as [e |].
  - rewrite Hpair. eexists. split; reflexivity.
  - destruct resp as [r |]; [| destruct Hsome; congruence].
    destruct (retryClass (StatusCode r)) eqn:Hclass.
    + eexists. split; [reflexivity | right; reflexivity].
    + apply retryClass_Retriable, retriableCodes_spec in Hclass. congruence.
    + eexists. split; [reflexivity | left; reflexivity].
Qed.

Lemma retry_loop_final (rc : RetryClient) (doFunc : @requestClosure W)
    n attempts s resp err st' :
  rc_CanRetry rc = (fun e => errors_Is e errRetryAllowed) ->
  retry_run env doFunc n attempts s resp err st' ->
  exists res v',
    retry_loop env rc n attempts (retry_attempt doFunc) s = (DoErr res, (v', st')) /\
    rv_resp v' = resp /\ rv_innerErr v' = err /\
    match err with
    | Some e => res = Some e
    | None => res = None \/ res = Some (Sentinel errRetryImpossible)
    end.
Proof.
  intros Hcan Hrun.
  induction Hrun as [n attempts s v st resp err st' Hctx Hprep Hdo Hpair Hallowed Hsome
                    | n attempts s v st resp err st' resp' err' st''
                        Hctx Hprep Hdo Hpair Hrun IH].
  - destruct (retry_attempt_final doFunc s v st st' resp err Hprep Hdo Hpair Hsome)
      as (res & Hatt & Hres).
    exists res, (rv_returned v resp err). simpl retry_loop.
    rewrite Hctx, Hatt, Hcan.
    destruct err as [e |].
    + subst res. simpl in Hallowed. rewrite Hallowed. repeat split.
    + destruct Hres as [-> | ->]; simpl; repeat split; auto.
  - destruct IH as (res & v' & Hloop & Hresp & Herr & Hres).
    exists res, v'. split; [| repeat split; assumption].
    change (retry_loop env rc (S (S n)) attempts (retry_attempt doFunc) s)
      with (match env_ctxErr env (world s.2) with
            | Some e => (DoErr (Some e), s)
            | None =>
                match retry_attempt doFunc s with
                | (DoPanic, s') => (DoPanic, s')
                | (DoErr None, s') => (DoErr None, s')
                | (DoErr (Some e), s') =>
                    if rc_CanRetry rc e then
                      retry_loop env rc (S n) (S attempts) (retry_attempt doFunc)
                        (s'.1, set_world (env_sleep env (S attempts)) s'.2)
                    else (DoErr (Some e), s')
                end
            end).
    rewrite Hctx.
    rewrite (retry_attempt_retriable doFunc s v st st' resp err Hprep Hdo Hpair).
    rewrite Hcan. simpl. exact Hloop.
Qed.

(** The call returns the outcome of the first attempt that is not
    retriable, when it comes before the attempts run out: the response
    and the error of that attempt as the wrapped executor returned them,
    except that a deadline error comes with a nil response. *)
Theorem Retries_returns_first_final_outcome (r0 : Retries) (st0 : State W)
    (doFunc : @requestClosure W) (req reqClone : loc) (st st1 st' : State W)
    (resp : option Response) (err : option error) :
  cloneRequest req st = (Cloned reqClone, st1) ->
  retry_run env doFunc (Z.to_nat (getMaxAttempts r0 st0).1) 0
    (rv_initial req reqClone, st1) resp err st' ->
  Retries_buildMiddleware env (Retries_doInitOnce r0 st0).1 doFunc req st
  = (if errors_Is_opt err context_DeadlineExceeded then Returned None err
     else Returned resp err, st').
Proof.
  intros Hclone Hrun.
  assert (Hpair : retriable_pair resp err = false).
  { clear Hclone. induction Hrun; assumption. }
  unfold Retries_buildMiddleware. rewrite Hclone.
  rewrite Retries_doInitOnce_retrier. unfold retry_Do. simpl rc_MaxAttempts.
  destruct (retry_loop_final
              {| rc_MaxAttempts := (getMaxAttempts r0 st0).1;
                 rc_BaseDelay := if (0 <? BaseDelay r0)%Z then BaseDelay r0
                                 else defaultBaseRetryDelay;
                 rc_MaxDelay := if (0 <? MaxDelay r0)%Z then MaxDelay r0
                                else defaultMaxRetryDelay;
                 rc_CanRetry := fun e => errors_Is e errRetryAllowed |}
              doFunc _ _ _ _ _ _ eq_refl Hrun)
    as (res & v' & Hloop & Hresp & Herr & Hres).
  rewrite Hloop. unfold retry_result. rewrite Hresp, Herr.
  unfold retriable_pair in Hpair.
  destruct err as [e |].
  - subst res. simpl. rewrite Hpair. simpl.
    destruct (errors_Is e context_DeadlineExceeded); [reflexivity |].
    destruct (errors_Is e errRetryImpossible || errors_Is e errRetryAllowed
              || errors_Is e retry_ErrAttemptsExceeded)%bool; reflexivity.
  - destruct Hres as [-> | ->]; reflexivity.
Qed.

End FinalOutcome.

(** 503 twice and then 200, with three attempts allowed: the 200 comes
    back after three requests. *)
Lemma Retries_returns_first_final_outcome_witness :
  let r0 := {| MaxAttempts := 3; BaseDelay := 0; MaxDelay := 0; retrier := None |} in
  let st0 := state_of [] [] (script []) in
  let doFunc := doRequestFunc script_env (Some plain_client) "GET::/items" in
  let st := state_of [get_request] []
              (script [reply_status 503 0; reply_status 503 0; reply_status 200 0]) in
  exists st',
    Retries_buildMiddleware script_env (Retries_doInitOnce r0 st0).1 doFunc 0 st
    = (Returned (Some {| StatusCode := 200; Payload := [] |}) None, st') /\
    length (wire st') = 3.
Proof.
  intros r0 st0 doFunc st.
  pose (st1 := (cloneRequest 0 st).2).
  pose (v1 := rv_returned (rv_initial 0 1) None None).
  pose (r503 := Some {| StatusCode := 503; Payload := [] |}).
  pose (r200 := Some {| StatusCode := 200; Payload := [] |}).
  pose (st2 := (doFunc 0 st1).2).
  pose (s2 := (rv_returned v1 r503 None,
               set_world (env_sleep script_env 1) (instr (RetryRetriable 0 503) st2))).
  pose (p2 := (retry_prepare s2).2).
  pose (st3 := (doFunc (rv_req p2.1) p2.2).2).
  pose (s3 := (rv_returned p2.1 r503 None,
               set_world (env_sleep script_env 2)
                 (instr (RetryRetriable (rv_req p2.1) 503) st3))).
  pose (p3 := (retry_prepare s3).2).
  pose (st4 := (doFunc (rv_req p3.1) p3.2).2).
  exists (final_state (rv_req p3.1) r200 None st4).
  split; [| vm_compute; reflexivity].
  apply (Retries_returns_first_final_outcome script_env r0 st0 doFunc 0 1 st st1
           _ r200 None); [vm_compute; reflexivity |].
  apply (retry_run_again script_env doFunc 1 0 (rv_initial 0 1, st1) v1 st1
           r503 None st2 r200 None _);
    [vm_compute; reflexivity | vm_compute; reflexivity | vm_compute; reflexivity
    | vm_compute; reflexivity |].
  apply (retry_run_again script_env doFunc 0 1 s2 p2.1 p2.2 r503 None st3 r200 None _);
    [vm_compute; reflexivity | vm_compute; reflexivity | vm_compute; reflexivity
    | vm_compute; reflexivity |].
  apply (retry_run_final script_env doFunc 0 2 s3 p3.1 p3.2 r200 None st4);
    [vm_compute; reflexivity | vm_compute; reflexivity | vm_compute; reflexivity
    | vm_compute; reflexivity | reflexivity | left; discriminate].
Defined.

(** ** Errors that stay inside the package *)

Section InternalErrors.

Context {W : Type} (env : Env W).

(** An error the package keeps to itself: the two retry sentinels and the
    retrier's [ErrAttemptsExceeded]. *)
Lemma retry_result_internal (v : RetryVars) (err : option error)
    (resp : option Response) (e : error) (s : sentinel) :
  s = errRetryAllowed \/ s = errRetryImpossible \/ s = retry_ErrAttemptsExceeded ->
  errors_Is_opt (rv_innerErr v) s = false ->
  retry_result v err = Returned resp (Some e) ->
  errors_Is e s = false.
Proof.
  intros Hs Hinner. unfold retry_result.
  destruct (errors_Is_opt err ErrTimeout || errors_Is_opt err context_DeadlineExceeded)%bool
    eqn:Hfirst.
  - intros [= _ ->]. simpl in Hfirst.
    destruct (errors_Is e s) eqn:E; [| reflexivity].
    apply orb_true_iff in Hfirst. destruct Hfirst as [H | H];
      pose proof (errors_Is_unique e _ _ H E) as Heq;
      destruct Hs as [-> | [-> | ->]]; discriminate.
  - destruct (errors_Is_opt err errRetryImpossible || errors_Is_opt err errRetryAllowed
              || errors_Is_opt err retry_ErrAttemptsExceeded)%bool eqn:Hsecond.
    + intros [= _ Hv]. rewrite Hv in Hinner. exact Hinner.
    + intros [= _ ->]. simpl in Hsecond.
      apply orb_false_iff in Hsecond. destruct Hsecond as [Hsecond H3].
      apply orb_false_iff in Hsecond. destruct Hsecond as [H1 H2].
      destruct Hs as [-> | [-> | ->]]; assumption.
Qed.

(** The errors that drive the retries stay inside the layer.  When the
    wrapped executor does not return them itself, an error of the call
    in which [errRetryAllowed], [errRetryImpossible] or the retrier's
    [ErrAttemptsExceeded] is found can only be the error of reading the
    caller's body before the first attempt, which is returned as it is,
    with a nil response; this holds for every retrier and every way the
    call ends. *)
Theorem Retries_keeps_internal_errors (r : Retries) (doFunc : @requestClosure W)
    (req : loc) (st st' : State W) (resp : option Response)
    (e : error) (s : sentinel) :
  s = errRetryAllowed \/ s = errRetryImpossible \/ s = retry_ErrAttemptsExceeded ->
  (forall q x resp' e' x',
      doFunc q x = (Returned resp' (Some e'), x') -> errors_Is e' s = false) ->
  Retries_buildMiddleware env r doFunc req st = (Returned resp (Some e), st') ->
  errors_Is e s = true ->
  cloneRequest req st = (CloneErr e, st') /\ resp = None.
Proof.
  intros Hs Hdo Hcall Hfound. revert Hcall. unfold Retries_buildMiddleware.
  destruct (cloneRequest req st) as [[reqClone | e0 |] st1] eqn:Hclone.
  2: { intros [= <- <- <-]. split; reflexivity. }
  2: { discriminate. }
  intros Hcall. exfalso. revert Hcall.
  assert (errors_Is e s <> false) as Hno by (rewrite Hfound; discriminate).
  intros Hcall. apply Hno. revert Hcall.
  destruct (retrier r) as [rc |]; [| discriminate].
  unfold retry_Do.
  destruct (retry_loop env rc _ 0 (retry_attempt doFunc) (rv_initial req reqClone, st1))
    as [[err |] [v st2]] eqn:Hloop; [| discriminate].
  intros [= Hres _].
  apply (retry_result_internal v err resp e s Hs); [| exact Hres].
  apply (retry_loop_pair_inv env (fun _ er => errors_Is_opt er s = false) rc doFunc)
    with (n := Z.to_nat (rc_MaxAttempts rc)) (attempts := 0)
         (s := (rv_initial req reqClone, st1)) (res := DoErr err) (s' := (v, st2)).
  - intros q x resp' [e' |] x' Hq; [| reflexivity]. exact (Hdo _ _ _ _ _ Hq).
  - reflexivity.
  - exact Hloop.
Qed.

(** The breaker keeps the errors of hystrix and its own tracking error
    to itself: whatever the wrapped layer and the command do, the error
    it returns is none of them. *)
Theorem CircuitBreaker_translates_errors (b : CircuitBreaker)
    (doFunc : @requestClosure W) (req : loc) (st st' : State W)
    (resp : option Response) (e : error) :
  CircuitBreaker_buildMiddleware env b doFunc req st = (Returned resp (Some e), st') ->
  e <> Sentinel hystrix_ErrCircuitOpen /\
  e <> Sentinel hystrix_ErrMaxConcurrency /\
  e <> Sentinel hystrix_ErrTimeout /\
  e <> Sentinel errTrackableStatusCodeError.
Proof.
  unfold CircuitBreaker_buildMiddleware.
  destruct (hystrix_Do env (cb_name b) (cb_run b doFunc req) (None, st))
    as [[err |] [resp0 st2]]; [| discriminate].
  unfold cb_result.
  destruct err as [[s | f w a | op url inner | msg t] |];
    try (intros [= _ <- _]; repeat split; discriminate);
    try discriminate.
  destruct s; intros [= _ <- _]; repeat split; discriminate.
Qed.

(** A call the command rejects never reaches the wrapped layer: the
    caller gets a nil response with [ErrCircuitIsOpen] (reported as
    [CBCircuitOpen]) or [ErrCircuitMaxConcurrencyReached] (not reported),
    and the network has seen nothing. *)
Theorem CircuitBreaker_rejects_without_running (b : CircuitBreaker)
    (doFunc : @requestClosure W) (req : loc) (st : State W) :
  env_gate env (cb_name b) (world st) = GateOpen \/
  env_gate env (cb_name b) (world st) = GateMaxConcurrency ->
  let out := CircuitBreaker_buildMiddleware env b doFunc req st in
  out.1 = Returned None
            (Some (Sentinel (match env_gate env (cb_name b) (world st) with
                             | GateOpen => ErrCircuitIsOpen
                             | _ => ErrCircuitMaxConcurrencyReached
                             end))) /\
  events out.2 = events st ++
                 match env_gate env (cb_name b) (world st) with
                 | GateOpen => [CBCircuitOpen req]
                 | _ => []
                 end /\
  wire out.2 = wire st /\ readers out.2 = readers st /\ reqs out.2 = reqs st /\
  world out.2 = world st.
Proof.
  intros Hgate out. subst out.
  unfold CircuitBreaker_buildMiddleware, hystrix_Do. simpl.
  destruct Hgate as [-> | ->]; simpl; rewrite ?app_nil_r; repeat split.
Qed.

End InternalErrors.

(** A body whose reader fails with the retrier's [ErrAttemptsExceeded]:
    the call returns that error, and it is the read error. *)
Lemma Retries_keeps_internal_errors_witness :
  let r0 := {| MaxAttempts := 2; BaseDelay := 0; MaxDelay := 0; retrier := None |} in
  let st0 := state_of [] [] (script []) in
  let doFunc : requestClosure := fun _ s =>
    (Returned None (Some (Errorf "%w - %s" (Sentinel ErrTimeout)
                            (NetError "awaiting headers" true))), s) in
  let broken := {| pending := [x68]%byte;
                   fault := Some (Sentinel retry_ErrAttemptsExceeded) |} in
  let st := state_of [post_request] [broken] (script []) in
  let out := Retries_buildMiddleware script_env (Retries_doInitOnce r0 st0).1
               doFunc 0 st in
  out.1 = Returned None (Some (Sentinel retry_ErrAttemptsExceeded)) /\
  cloneRequest 0 st = (CloneErr (Sentinel retry_ErrAttemptsExceeded), out.2).
Proof.
  intros r0 st0 doFunc broken st out.
  assert (H : exists resp,
             out = (Returned resp (Some (Sentinel retry_ErrAttemptsExceeded)),
                    out.2)).
  { eexists. vm_compute. reflexivity. }
  destruct H as (resp & H).
  destruct (Retries_keeps_internal_errors script_env (Retries_doInitOnce r0 st0).1
              doFunc 0 st out.2 resp (Sentinel retry_ErrAttemptsExceeded)
              retry_ErrAttemptsExceeded) as [Hclone Hresp].
  - right. right. reflexivity.
  - intros q x resp' e' x' Hq. unfold doFunc in Hq. injection Hq as _ <- _.
    reflexivity.
  - exact H.
  - reflexivity.
  - split; [rewrite H, Hresp; reflexivity | exact Hclone].
Defined.

Lemma CircuitBreaker_translates_errors_witness :
  let b := {| ErrorPercentThreshold := 80; MaxConcurrentRequests := 10;
              cb_name := "shop"; trackError := Some (fun n => n) |} in
  let full := {| replies := []; script_ctx := None;
                 script_gate := GateMaxConcurrency |} in
  let out := CircuitBreaker_buildMiddleware script_env b
               (doRequestFunc script_env (Some plain_client) "GET::") 0 (state_of [get_request] [] full) in
  out.1 = Returned None (Some (Sentinel ErrCircuitMaxConcurrencyReached)) /\
  Sentinel ErrCircuitMaxConcurrencyReached <> Sentinel hystrix_ErrMaxConcurrency.
Proof.
  intros b full out. split; [vm_compute; reflexivity |].
  apply (CircuitBreaker_translates_errors script_env b
           (doRequestFunc script_env (Some plain_client) "GET::") 0 (state_of [get_request] [] full)
           out.2 None).
  vm_compute. reflexivity.
Defined.

Lemma CircuitBreaker_rejects_without_running_witness :
  let b := {| ErrorPercentThreshold := 80; MaxConcurrentRequests := 10;
              cb_name := "shop"; trackError := Some (fun n => n) |} in
  let opened := {| replies := [reply_status 200 0]; script_ctx := None;
                   script_gate := GateOpen |} in
  let out := CircuitBreaker_buildMiddleware script_env b
               (doRequestFunc script_env (Some plain_client) "GET::") 0
               (state_of [get_request] [] opened) in
  out.1 = Returned None (Some (Sentinel ErrCircuitIsOpen)) /\
  events out.2 = [CBCircuitOpen 0] /\ wire out.2 = [].
Proof.
  intros b opened out.
  destruct (CircuitBreaker_rejects_without_running script_env b
              (doRequestFunc script_env (Some plain_client) "GET::") 0
              (state_of [get_request] [] opened) (or_introl eq_refl))
    as (H1 & H2 & H3 & _).
  split; [exact H1 |]. split; [exact H2 | exact H3].
Defined.

(** ** A body that cannot be read *)

Section UnreadableBody.

Context {W : Type} (env : Env W).

(** When reading the caller's body fails, the call fails with the
    reader's own error and a nil response before any attempt: nothing is
    shown to the network and nothing is reported.  The bytes that were
    read are lost: the reader is left at its end and the request still
    carries it. *)
Theorem Retries_unreadable_body (r : Retries) (doFunc : @requestClosure W)
    (req body : loc) (st : State W) (rq : Request) (rd : Reader) (e : error) :
  reqs st !! req = Some rq ->
  Body rq = Some body ->
  readers st !! body = Some rd ->
  fault rd = Some e ->
  let out := Retries_buildMiddleware env r doFunc req st in
  out.1 = Returned None (Some e) /\
  wire out.2 = wire st /\ events out.2 = events st /\ world out.2 = world st /\
  readers out.2 !! body = Some {| pending := []; fault := Some e |} /\
  reqs out.2 !! req = Some rq.
Proof.
  intros Hreq Hbody Hrd Hfault out. subst out.
  pose proof (lookup_lt_Some _ _ _ Hrd) as Hlt.
  unfold Retries_buildMiddleware, cloneRequest. rewrite Hreq. unfold new_Request.
  rewrite Hbody. unfold ReadFrom. simpl readers. rewrite Hrd, Hfault.
  unfold advance. simpl readers. rewrite Hrd, Hfault. simpl.
  rewrite drop_all. split_and!; try reflexivity.
  - apply list_lookup_insert_eq. exact Hlt.
  - apply lookup_app_l_Some. exact Hreq.
Qed.

End UnreadableBody.

Lemma Retries_unreadable_body_witness :
  let r0 := {| MaxAttempts := 3; BaseDelay := 0; MaxDelay := 0; retrier := None |} in
  let broken := {| pending := [x68]%byte;
                   fault := Some (Sentinel (errors_New "unexpected EOF")) |} in
  let st := state_of [post_request] [broken] (script [reply_status 200 0]) in
  let out := Retries_buildMiddleware script_env
               (Retries_doInitOnce r0 (state_of [] [] (script []))).1
               (doRequestFunc script_env (Some plain_client) "POST::") 0 st in
  out.1 = Returned None (Some (Sentinel (errors_New "unexpected EOF"))) /\
  wire out.2 = [].
Proof.
  intros r0 broken st out.
  destruct (Retries_unreadable_body script_env
              (Retries_doInitOnce r0 (state_of [] [] (script []))).1
              (doRequestFunc script_env (Some plain_client) "POST::") 0 0 st post_request broken
              (Sentinel (errors_New "unexpected EOF"))
              eq_refl eq_refl eq_refl eq_refl) as (H1 & H2 & _).
  split; [exact H1 | exact H2].
Defined.

(** ** The default key *)

Lemma string_app_nil (s : string) : "" +:+ s = s.
Proof. reflexivity. Qed.

Lemma string_app_cons (c : ascii) (s t : string) :
  String c s +:+ t = String c (s +:+ t).
Proof. reflexivity. Qed.

Lemma no_bar_key_split (m1 m2 u1 u2 : string) :
  no_bar m1 = true -> no_bar m2 = true ->
  m1 +:+ "||" +:+ u1 = m2 +:+ "||" +:+ u2 ->
  m1 = m2 /\ u1 = u2.
Proof.
  revert m2. induction m1 as [| c1 m1 IH]; intros m2 H1 H2 Heq.
  - destruct m2 as [| c2 m2].
    + rewrite !string_app_nil, !string_app_cons, !string_app_nil in Heq.
      split; [reflexivity | congruence].
    + rewrite !string_app_nil, !string_app_cons in Heq.
      injection Heq as Hc _. subst c2. simpl in H2. discriminate.
  - destruct m2 as [| c2 m2].
    + rewrite !string_app_nil, !string_app_cons in Heq.
      injection Heq as Hc _. subst c1. simpl in H1. discriminate.
    + rewrite !(string_app_cons _ m1), !(string_app_cons _ m2) in Heq.
      injection Heq as Hc Heq. subst c2. simpl in H1, H2.
      apply andb_true_iff in H1, H2. destruct H1 as [_ H1], H2 as [_ H2].
      destruct (IH m2 H1 H2 Heq) as [Hm Hu]. subst. split; reflexivity.
Qed.

(** For methods without the byte [|] (every HTTP method is a token, which
    cannot hold it) the default key tells requests apart by method and
    URL, and by nothing else: two requests get the same key exactly when
    their methods and their URL strings are the same, whatever their
    bodies. *)
Theorem DefaultSFKeyGenerator_same_key (r1 r2 : Request) :
  no_bar (Method r1) = true ->
  no_bar (Method r2) = true ->
  DefaultSFKeyGenerator r1 = DefaultSFKeyGenerator r2 <->
  Method r1 = Method r2 /\ url_String (URL r1) = url_String (URL r2).
Proof.
  intros H1 H2. unfold DefaultSFKeyGenerator. split.
  - apply no_bar_key_split; assumption.
  - intros [-> ->]. reflexivity.
Qed.

Lemma DefaultSFKeyGenerator_same_key_witness :
  DefaultSFKeyGenerator get_request
  = DefaultSFKeyGenerator {| Method := "GET"; URL := example_url; Body := Some 4 |} /\
  DefaultSFKeyGenerator get_request <> DefaultSFKeyGenerator head_request.
Proof.
  split.
  - apply (DefaultSFKeyGenerator_same_key get_request
             {| Method := "GET"; URL := example_url; Body := Some 4 |});
      [reflexivity | reflexivity |]. split; reflexivity.
  - intros H.
    apply (DefaultSFKeyGenerator_same_key get_request head_request) in H;
      [| reflexivity | reflexivity].
    destruct H as [H _]. discriminate.
Defined.

(** ** What the errors of the base executor still tell *)

(** The base executor returns the error of the client as it is, unless
    the [*url.Error] in it reports a timeout: then it returns an error
    made with [%w - %s], which cuts the chain, so that [errors.Is] finds
    [ErrTimeout] in it and nothing else and [errors.As] finds no
    [*url.Error].  In the same way the dial wrapper returns
    [ErrConnectTimeout] itself for a [net.Error] timeout, an error in
    which only [ErrConnection] can be found for another [net.Error], and
    the dial error as it is otherwise. *)
Theorem base_errors_causes (err : error) (s : sentinel) :
  (baseErr err).1
  = (if urlErr_Timeout err then Errorf "%w - %s" (Sentinel ErrTimeout) err
     else err) /\
  errors_Is (baseErr err).1 s
  = (if urlErr_Timeout err then bool_decide (s = ErrTimeout) else errors_Is err s) /\
  errors_As_UrlError (baseErr err).1
  = (if urlErr_Timeout err then None else errors_As_UrlError err) /\
  DialContext_err err
  = match as_net_Error err with
    | Some true => Sentinel ErrConnectTimeout
    | Some false => Errorf "%w %v" (Sentinel ErrConnection) err
    | None => err
    end /\
  errors_Is (DialContext_err err) s
  = match as_net_Error err with
    | Some true => bool_decide (s = ErrConnectTimeout)
    | Some false => bool_decide (s = ErrConnection)
    | None => errors_Is err s
    end.
Proof.
  unfold baseErr, DialContext_err.
  destruct (urlErr_Timeout err); simpl.
  - destruct (as_net_Error err) as [[|] |]; simpl;
      repeat split; apply bool_decide_ext; split; congruence.
  - destruct (errors_Is err context_DeadlineExceeded),
             (errors_Is err context_Canceled); simpl;
      destruct (as_net_Error err) as [[|] |]; simpl;
      repeat split; apply bool_decide_ext; split; congruence.
Qed.

(** ** What initialisation guarantees *)

Section Initialisation.

Context {W : Type} (env : Env W).

Lemma getMaxConcurrent_spec (b : CircuitBreaker) (st : State W) :
  (getMaxConcurrent b st).1
  = (if (0 <? MaxConcurrentRequests b)%Z then MaxConcurrentRequests b else 10%Z) /\
  (0 < (getMaxConcurrent b st).1)%Z /\
  hystrix_config (getMaxConcurrent b st).2 = hystrix_config st.
Proof.
  unfold getMaxConcurrent, defaultMaxConcurrentRequests.
  destruct (Z.ltb_spec 0 (MaxConcurrentRequests b)); simpl; repeat split; lia.
Qed.

Lemma getErrorPercent_spec (b : CircuitBreaker) (st : State W) :
  (getErrorPercent b st).1
  = (if (50 <? ErrorPercentThreshold b)%Z then ErrorPercentThreshold b else 80%Z) /\
  (50 < (getErrorPercent b st).1)%Z /\
  hystrix_config (getErrorPercent b st).2 = hystrix_config st.
Proof.
  unfold getErrorPercent, minErrorThreshold, defaultErrorThreshold.
  destruct (Z.ltb_spec 50 (ErrorPercentThreshold b)); simpl; repeat split; lia.
Qed.

Lemma CircuitBreaker_doInitOnce_spec (b : CircuitBreaker) (name : string)
    (st : State W) :
  exists b',
    (CircuitBreaker_doInitOnce (Some b) name st).1 = Some b' /\
    cb_name b' = name /\ trackError b' <> None /\
    hystrix_config (CircuitBreaker_doInitOnce (Some b) name st).2
    = hystrix_config st ++
      [(name,
        {| cc_Timeout := 3600000;
           cc_MaxConcurrentRequests :=
             if (0 <? MaxConcurrentRequests b)%Z then MaxConcurrentRequests b
             else 10%Z;
           cc_ErrorPercentThreshold :=
             if (50 <? ErrorPercentThreshold b)%Z then ErrorPercentThreshold b
             else 80%Z |})].
Proof.
  unfold CircuitBreaker_doInitOnce, getTimeout.
  set (b1 := {| ErrorPercentThreshold := ErrorPercentThreshold b;
                MaxConcurrentRequests := MaxConcurrentRequests b;
                cb_name := name; trackError := trackError b |}).
  destruct (getMaxConcurrent_spec b1 st) as (Hmc & _ & Hmcs).
  destruct (getMaxConcurrent b1 st) as [mc st1]. simpl in Hmc, Hmcs.
  destruct (getErrorPercent_spec b1 st1) as (Hep & _ & Heps).
  destruct (getErrorPercent b1 st1) as [ep st2]. simpl in Hep, Heps.
  eexists. split; [reflexivity |]. simpl.
  rewrite Heps, Hmcs, Hmc, Hep.
  split; [reflexivity |]. split; [| reflexivity].
  destruct (trackError b); discriminate.
Qed.

Lemma Retries_doInitOnce_spec (r : Retries) (st : State W) :
  hystrix_config (Retries_doInitOnce r st).2 = hystrix_config st /\
  exists rc,
    retrier (Retries_doInitOnce r st).1 = Some rc /\
    rc_MaxAttempts rc = (if (0 <? MaxAttempts r)%Z then MaxAttempts r else 3%Z) /\
    (0 < rc_MaxAttempts rc)%Z /\ (0 < rc_BaseDelay rc)%Z /\ (0 < rc_MaxDelay rc)%Z.
Proof.
  split.
  - unfold Retries_doInitOnce, getMaxAttempts, getBaseDelay, getMaxDelay.
    destruct (0 <? MaxAttempts r)%Z, (0 <? BaseDelay r)%Z, (0 <? MaxDelay r)%Z;
      reflexivity.
  - rewrite Retries_doInitOnce_retrier. eexists. split; [reflexivity |]. simpl.
    unfold getMaxAttempts, defaultMaxAttempts, defaultBaseRetryDelay,
      defaultMaxRetryDelay.
    destruct (Z.ltb_spec 0 (MaxAttempts r)); destruct (Z.ltb_spec 0 (BaseDelay r));
      destruct (Z.ltb_spec 0 (MaxDelay r)); simpl; repeat split; lia.
Qed.

(** Whatever the caller configured, after [doInitOnce] the client is
    marked initialised and has a name, timeouts and an instrumentation;
    the hystrix command of that name has been configured once more, with
    the hour-long timeout, a positive concurrency cap and an error
    threshold above 50; a retry layer, if there is one, has a retrier
    with at least one attempt and positive delays; and a singleflight
    layer, if there is one, has its key generator and hook.  Layers are
    neither added nor removed. *)
Theorem Client_doInitOnce_guarantees (c : Client) (st : State W) :
  let c' := (Client_doInitOnce env c st).1 in
  let st' := (Client_doInitOnce env c st).2 in
  clientInitOnce c' = true /\
  Name c' <> "" /\
  ClientTimeout c' <> 0%Z /\ ConnectTimeout c' <> 0%Z /\
  ClientInstrumentation c' <> None /\
  cb_name (ClientCircuitBreaker c') = Name c' /\
  trackError (ClientCircuitBreaker c') <> None /\
  (exists cc,
      hystrix_config st' = hystrix_config st ++ [(Name c', cc)] /\
      cc_Timeout cc = 3600000%Z /\
      (0 < cc_MaxConcurrentRequests cc)%Z /\
      (50 < cc_ErrorPercentThreshold cc)%Z) /\
  match ClientRetries c, ClientRetries c' with
  | None, None => True
  | Some _, Some r' =>
      exists rc, retrier r' = Some rc /\
                 (0 < rc_MaxAttempts rc)%Z /\
                 (0 < rc_BaseDelay rc)%Z /\ (0 < rc_MaxDelay rc)%Z
  | _, _ => False
  end /\
  match ClientSingleflight c, ClientSingleflight c' with
  | None, None => True
  | Some _, Some s' => actualKeyGenerator s' <> None /\ trackKey s' <> None
  | _, _ => False
  end.
Proof.
  unfold Client_doInitOnce.
  set (named := if String.eqb (Name c) "" then _ else _).
  assert (Hnamed : named.1 <> "" /\ hystrix_config named.2 = hystrix_config st).
  { subst named. destruct (String.eqb_spec (Name c) ""); simpl.
    - split; [discriminate | reflexivity].
    - split; [assumption | reflexivity]. }
  destruct named as [name st1]. simpl in Hnamed. destruct Hnamed as [Hname Hst1].
  destruct (CircuitBreaker_doInitOnce_spec (ClientCircuitBreaker c) name
              (instr (Init name) st1)) as (b' & Hb & Hbn & Hbt & Hcfg).
  destruct (CircuitBreaker_doInitOnce (Some (ClientCircuitBreaker c)) name
              (instr (Init name) st1)) as [cb st2].
  simpl in Hb, Hcfg. subst cb. simpl in Hcfg. rewrite Hst1 in Hcfg.
  assert (Hcc : exists cc,
             hystrix_config st2 = hystrix_config st ++ [(name, cc)] /\
             cc_Timeout cc = 3600000%Z /\
             (0 < cc_MaxConcurrentRequests cc)%Z /\
             (50 < cc_ErrorPercentThreshold cc)%Z).
  { eexists. split; [exact Hcfg |]. simpl. split; [reflexivity |].
    destruct (Z.ltb_spec 0 (MaxConcurrentRequests (ClientCircuitBreaker c)));
      destruct (Z.ltb_spec 50 (ErrorPercentThreshold (ClientCircuitBreaker c)));
      split; lia. }
  assert (Htimeouts :
            (if (ClientTimeout c =? 0)%Z then defaultTimeout else ClientTimeout c)
            <> 0%Z /\
            (if (ConnectTimeout c =? 0)%Z then defaultConnectTimeout
             else ConnectTimeout c) <> 0%Z).
  { unfold defaultTimeout, defaultConnectTimeout.
    destruct (Z.eqb_spec (ClientTimeout c) 0);
      destruct (Z.eqb_spec (ConnectTimeout c) 0); split; lia. }
  destruct Htimeouts as [Ht Hct].
  assert (Hsf : match ClientSingleflight c,
                      Singleflight_doInitOnce <$> ClientSingleflight c with
                | None, None => True
                | Some _, Some s' =>
                    actualKeyGenerator s' <> None /\ trackKey s' <> None
                | _, _ => False
                end).
  { destruct (ClientSingleflight c) as [s |]; simpl; [| exact I].
    split; [destruct (KeyGenerator s) | destruct (trackKey s)]; discriminate. }
  destruct (ClientRetries c) as [r |].
  - destruct (Retries_doInitOnce_spec r st2) as (Hrs & rc & Hrc).
    destruct (Retries_doInitOnce r st2) as [r' st3]. simpl in Hrs, Hrc. simpl.
    rewrite Hrs. split_and!; try done.
    exists rc. destruct Hrc as (H1 & _ & H2 & H3 & H4). split_and!; assumption.
  - simpl. split_and!; done.
Qed.

(** The client of the shop service, built by [newAppContext] from the
    environment: it is called [smarthttp], it never coalesces requests
    (no singleflight layer is configured), its breaker runs with the
    default threshold of 80 and with the concurrency cap of the
    environment when that is a positive number, else 10, and it makes as
    many attempts as the environment says when that is a positive number,
    else 3, with positive delays. *)
Theorem service_client_settings (environ : gmap string string) (st : State W) :
  let cfg := getHTTPClientConfig environ in
  let c' := (Client_doInitOnce env (newAppContext_client cfg) st).1 in
  let st' := (Client_doInitOnce env (newAppContext_client cfg) st).2 in
  Name c' = "smarthttp" /\
  ClientSingleflight c' = None /\
  (exists r rc,
      ClientRetries c' = Some r /\ retrier r = Some rc /\
      rc_MaxAttempts rc
      = match Atoi (Getenv environ "HTTP_RETRY_ATTEMPTS") with
        | AtoiOk v => if (0 <? v)%Z then v else 3%Z
        | _ => 3%Z
        end /\
      (0 < rc_BaseDelay rc)%Z /\ (0 < rc_MaxDelay rc)%Z) /\
  hystrix_config st'
  = hystrix_config st ++
    [("smarthttp",
      {| cc_Timeout := 3600000;
         cc_MaxConcurrentRequests :=
           match Atoi (Getenv environ "HTTP_CLIENT_MAX_CONCURRENCY") with
           | AtoiOk v => if (0 <? v)%Z then v else 10%Z
           | _ => 10%Z
           end;
         cc_ErrorPercentThreshold := 80 |})].
Proof.
  intros cfg.
  assert (Hattempts :
            (if (0 <? retryAttempts cfg)%Z then retryAttempts cfg else 3%Z)
            = match Atoi (Getenv environ "HTTP_RETRY_ATTEMPTS") with
              | AtoiOk v => if (0 <? v)%Z then v else 3%Z
              | _ => 3%Z
              end).
  { subst cfg. unfold getHTTPClientConfig, httpRetryAttemptsDefault.
    cbn [retryAttempts].
    destruct (Atoi (Getenv environ "HTTP_RETRY_ATTEMPTS")); reflexivity. }
  assert (Hconc :
            (if (0 <? concurrency cfg)%Z then concurrency cfg else 10%Z)
            = match Atoi (Getenv environ "HTTP_CLIENT_MAX_CONCURRENCY") with
              | AtoiOk v => if (0 <? v)%Z then v else 10%Z
              | _ => 10%Z
              end).
  { subst cfg. unfold getHTTPClientConfig, httpMaxConcurrencyDefault.
    cbn [concurrency].
    destruct (Atoi (Getenv environ "HTTP_CLIENT_MAX_CONCURRENCY")); reflexivity. }
  clearbody cfg. rewrite <- Hattempts, <- Hconc. clear Hattempts Hconc.
  unfold Client_doInitOnce, newAppContext_client.
  cbn [Name ClientCircuitBreaker ClientRetries ClientSingleflight String.eqb
       Ascii.eqb Bool.eqb clientInitOnce ClientTimeout ConnectTimeout
       ClientInstrumentation fst snd].
  set (b := {| ErrorPercentThreshold := 0;
               MaxConcurrentRequests := concurrency cfg;
               cb_name := _; trackError := None |}).
  destruct (CircuitBreaker_doInitOnce_spec b "smarthttp"
              (instr (Init "smarthttp") st)) as (b' & Hb & _ & _ & Hcfg).
  destruct (CircuitBreaker_doInitOnce (Some b) "smarthttp"
              (instr (Init "smarthttp") st)) as [cb st2].
  cbn [fst snd] in Hb, Hcfg. subst cb.
  set (r := {| MaxAttempts := retryAttempts cfg; BaseDelay := _;
               MaxDelay := _; retrier := None |}).
  destruct (Retries_doInitOnce_spec r st2)
    as (Hrs & rc & Hrc & Hma & _ & Hbd & Hmd).
  destruct (Retries_doInitOnce r st2) as [r' st3].
  cbn [fst snd] in Hrs, Hrc, Hma.
  cbn [fst snd Name ClientSingleflight ClientRetries fmap option_fmap option_map].
  split; [reflexivity |]. split; [reflexivity |]. split.
  - exists r', rc. split_and!; try done.
  - rewrite Hrs, Hcfg. reflexivity.
Qed.

End Initialisation.

(** ** How many requests one call can send *)

Section RequestBound.

Context {W : Type} (env : Env W).

Lemma cloneRequest_wire (req : loc) (st : State W) :
  wire (cloneRequest req st).2 = wire st.
Proof.
  unfold cloneRequest, new_Request, ReadFrom, advance, new_Reader, set_Body.
  repeat (case_match; simplify_eq/=; try reflexivity).
Qed.

Lemma doRequestFunc_wire (cl : option http_Client) (tag : string) (q : loc)
    (st : State W) :
  length (wire (doRequestFunc env cl tag q st).2) <= length (wire st) + 1.
Proof.
  unfold doRequestFunc, http_Client_Do, advance.
  repeat (case_match; simplify_eq/=; try lia); rewrite ?length_app; simpl; lia.
Qed.

Lemma retry_attempt_wire (doFunc : @requestClosure W) (k : nat)
    (s : RetryVars * State W) :
  (forall q st, length (wire (doFunc q st).2) <= length (wire st) + k) ->
  length (wire (retry_attempt doFunc s).2.2) <= length (wire s.2) + k.
Proof.
  intros Hf. destruct s as [v st]. unfold retry_attempt, retry_prepare.
  destruct (rv_isFirstTry v).
  - simpl. pose proof (Hf (rv_req v) st) as H.
    destruct (doFunc (rv_req v) st) as [[resp innerErr |] st1]; simpl in *;
      try assumption; repeat (case_match; simplify_eq/=; try assumption).
  - destruct (rv_reqClone v) as [c |]; [| simpl; lia].
    pose proof (cloneRequest_wire c st) as Hc.
    destruct (cloneRequest c st) as [[c' | e |] st1]; simpl in *;
      try (rewrite Hc; lia).
    pose proof (Hf c st1) as H. rewrite Hc in H.
    destruct (doFunc c st1) as [[resp innerErr |] st2]; simpl in *;
      try assumption; repeat (case_match; simplify_eq/=; try assumption).
Qed.

Lemma retry_loop_wire (rc : RetryClient) (doFunc : @requestClosure W) (k : nat) :
  (forall q st, length (wire (doFunc q st).2) <= length (wire st) + k) ->
  forall n attempts (s : RetryVars * State W),
    length (wire (retry_loop env rc n attempts (retry_attempt doFunc) s).2.2)
    <= length (wire s.2) + n * k.
Proof.
  intros Hf. induction n as [| n IH]; intros attempts s; [simpl; lia |].
  simpl. destruct (env_ctxErr env (world s.2)); [simpl; lia |].
  pose proof (retry_attempt_wire doFunc k s Hf) as Hatt.
  destruct (retry_attempt doFunc s) as [[[e |] |] s1]; simpl in *; try lia.
  destruct (rc_CanRetry rc e); [| simpl; lia].
  destruct n as [| n']; [simpl; lia |].
  etrans; [apply IH |]. simpl in *. lia.
Qed.

Lemma Retries_buildMiddleware_wire (r : Retries) (rc : RetryClient)
    (doFunc : @requestClosure W) (k : nat) (req : loc) (st : State W) :
  retrier r = Some rc ->
  (forall q st, length (wire (doFunc q st).2) <= length (wire st) + k) ->
  length (wire (Retries_buildMiddleware env r doFunc req st).2)
  <= length (wire st) + Z.to_nat (rc_MaxAttempts rc) * k.
Proof.
  intros Hrc Hf. unfold Retries_buildMiddleware. rewrite Hrc.
  pose proof (cloneRequest_wire req st) as Hc.
  destruct (cloneRequest req st) as [[c | e |] st1]; simpl in *;
    try (rewrite Hc; lia).
  unfold retry_Do.
  pose proof (retry_loop_wire rc doFunc k Hf (Z.to_nat (rc_MaxAttempts rc)) 0
                (rv_initial req c, st1)) as Hl.
  simpl in Hl. rewrite Hc in Hl.
  destruct (retry_loop env rc _ 0 (retry_attempt doFunc) (rv_initial req c, st1))
    as [[err |] [v st2]]; simpl in *; lia.
Qed.

Lemma CircuitBreaker_buildMiddleware_wire (b : CircuitBreaker)
    (doFunc : @requestClosure W) (k : nat) (req : loc) (st : State W) :
  (forall q st, length (wire (doFunc q st).2) <= length (wire st) + k) ->
  length (wire (CircuitBreaker_buildMiddleware env b doFunc req st).2)
  <= length (wire st) + k.
Proof.
  intros Hf.
  unfold CircuitBreaker_buildMiddleware, hystrix_Do, cb_run, cb_result,
    outErrorBasedOnResponseCode.
  pose proof (Hf req st) as H. simpl.
  destruct (env_gate env (cb_name b) (world st));
    try (simpl; lia);
    destruct (doFunc req st) as [[resp innerErr |] st1]; simpl in *;
    try assumption;
    repeat (case_match; simplify_eq/=; try assumption).
Qed.

Lemma Singleflight_addMiddleware_wire (s : option Singleflight)
    (doFunc : @requestClosure W) (k : nat) (req : loc) (st : State W) :
  (forall q st, length (wire (doFunc q st).2) <= length (wire st) + k) ->
  length (wire (Singleflight_addMiddleware env s doFunc req st).2)
  <= length (wire st) + k.
Proof.
  intros Hf. destruct s as [s |]; [| apply Hf].
  unfold Singleflight_addMiddleware, Singleflight_buildMiddleware, group_Do, sf_fn.
  destruct (reqs st !! req) as [rq |]; [| simpl; lia].
  destruct (_ && _); [apply Hf |].
  destruct (actualKeyGenerator s) as [generate |]; [| simpl; lia].
  destruct (trackKey s) as [hook |]; [| simpl; lia]. simpl.
  destruct (env_peer env _ _) as [[resp err] |].
  - destruct err; simpl; lia.
  - match goal with
    | |- context [doFunc req ?st1] =>
        pose proof (Hf req st1) as H;
        destruct (doFunc req st1) as [[resp innerErr |] st2]
    end; simpl in *; try assumption;
      repeat (case_match; simplify_eq/=; try assumption).
Qed.

Lemma Client_doInitOnce_wire (c : Client) (st : State W) :
  wire (Client_doInitOnce env c st).2 = wire st.
Proof.
  unfold Client_doInitOnce, CircuitBreaker_doInitOnce, Retries_doInitOnce,
    getMaxConcurrent, getErrorPercent, getMaxAttempts, getBaseDelay, getMaxDelay.
  repeat (case_match; simplify_eq/=; try reflexivity).
Qed.

Lemma Client_doInitOnce_retries (c : Client) (st : State W) :
  exists st2 : State W,
    ClientRetries (Client_doInitOnce env c st).1
    = (fun r => (Retries_doInitOnce r st2).1) <$> ClientRetries c /\
    ClientSingleflight (Client_doInitOnce env c st).1
    = Singleflight_doInitOnce <$> ClientSingleflight c.
Proof.
  unfold Client_doInitOnce.
  destruct (if String.eqb (Name c) "" then _ else _) as [name st1].
  destruct (CircuitBreaker_doInitOnce _ name _) as [cb st2].
  exists st2. destruct (ClientRetries c) as [r |]; simpl.
  - destruct (Retries_doInitOnce r st2) as [r' st3]. split; reflexivity.
  - split; reflexivity.
Qed.

(** One call of [Do] on a client that has not been used yet hands at
    most [MaxAttempts] requests to the HTTP client, so that it sends at
    most that many to the network (3 when [MaxAttempts] is not
    positive), and at most one when no retries are configured;
    this holds for every request, every reply of the network and every
    state of the breaker and of the singleflight group. *)
Theorem Client_Do_request_bound (c : Client) (req : loc) (st : State W) :
  clientInitOnce c = false ->
  length (wire (Client_Do env c req st).2.2)
  <= length (wire st) +
     match ClientRetries c with
     | None => 1
     | Some r => Z.to_nat (if (0 <? MaxAttempts r)%Z then MaxAttempts r else 3%Z)
     end.
Proof.
  intros Hfresh. unfold Client_Do, Client_init. rewrite Hfresh.
  pose proof (Client_doInitOnce_wire c st) as Hw.
  destruct (Client_doInitOnce_retries c st) as (st2 & Hr & _).
  destruct (Client_doInitOnce env c st) as [c' st1]. simpl in Hw, Hr.
  destruct (reqs st1 !! req) as [rq |]; [| simpl; rewrite Hw; lia].
  set (tag := generateEndpointTag _ _).
  assert (Hstack : length (wire (Client_stack env c' tag req st1).2)
                   <= length (wire st1) +
                      match ClientRetries c with
                      | None => 1
                      | Some r =>
                          Z.to_nat (if (0 <? MaxAttempts r)%Z then MaxAttempts r
                                    else 3%Z)
                      end).
  { unfold Client_stack. apply Singleflight_addMiddleware_wire.
    intros q s. apply CircuitBreaker_buildMiddleware_wire.
    clear q s. intros q s. rewrite Hr.
    destruct (ClientRetries c) as [r |]; simpl.
    - destruct (Retries_doInitOnce_spec r st2) as (_ & rc & Hrc & Hma & _).
      pose proof (Retries_buildMiddleware_wire _ rc
                    (doRequestFunc env (ClientClient c') tag) 1 q s
                    Hrc (doRequestFunc_wire (ClientClient c') tag)) as H.
      rewrite Hma in H. lia.
    - apply doRequestFunc_wire. }
  destruct (Client_stack env c' tag req st1) as [res st3]. simpl in *.
  rewrite Hw in Hstack. exact Hstack.
Qed.

End RequestBound.

(** A fresh client with two attempts, a network that keeps answering
    503: two requests are sent. *)
Lemma Client_Do_request_bound_witness :
  let c := newAppContext_client
             {| cliTimeout := 0; retryDelay := 0; retryMaxDelay := 0;
                retryAttempts := 2; concurrency := 0 |} in
  let st := state_of [get_request] []
              (script [reply_status 503 0; reply_status 503 0; reply_status 503 0]) in
  length (wire (Client_Do script_env c 0 st).2.2) <= 0 + 2 /\
  length (wire (Client_Do script_env c 0 st).2.2) = 2.
Proof.
  intros c st. split; [| vm_compute; reflexivity].
  exact (Client_Do_request_bound script_env c 0 st eq_refl).
Defined.
